(** * hertz-contrib/swagger: the request dispatcher of [swagger.go]

    A shallow embedding of [src/swagger.go]: the [Config] record and its
    option setters, the [matcher] regular expression with the leftmost-first
    backtracking semantics of Go's [regexp] package, [filepath.Ext], and the
    closure returned by [CustomWrapHandler], followed by the properties the
    specification states about them. *)

From stdpp Require Import gmap strings list.
From Stdlib Require Import Ascii String ZArith Lia.

Local Open Scope string_scope.

(* ===================================================================== *)
(** * Go strings *)
(* ===================================================================== *)

(** A Go [string] is a sequence of bytes: [String.string]. *)

(** The newline byte, the one character [.] does not match. *)
Definition newline : ascii := "010"%char.

(** [strings.HasPrefix] together with the cut: [cut_prefix l s] is the rest
    of [s] after the literal [l], when [s] starts with [l]. *)
Fixpoint cut_prefix (l s : string) : option string :=
  match l with
  | EmptyString => Some s
  | String a l' =>
      match s with
      | EmptyString => None
      | String b s' => if Ascii.eqb a b then cut_prefix l' s' else None
      end
  end.

(** [s[:len(s)-len(rest)]]: the part of [s] consumed when [rest] is left. *)
Definition consumed (s rest : string) : string :=
  substring 0 (String.length s - String.length rest) s.

(** [no_newline s]: no byte of [s] is a line feed. *)
Fixpoint no_newline (s : string) : bool :=
  match s with
  | EmptyString => true
  | String c s' => negb (Ascii.eqb c newline) && no_newline s'
  end.

(* ===================================================================== *)
(** * Package [regexp]: leftmost-first matching by backtracking *)
(* ===================================================================== *)

Module regexp.

(** The operators of [regexp/syntax] that [matcher] is built from. *)
Inductive Regexp : Type :=
| OpNoMatch
| OpLiteral (lit : string)
| OpAnyCharNotNL
| OpCharClass (class : list ascii)
| OpConcat (r1 r2 : Regexp)
| OpAlternate (r1 r2 : Regexp)
| OpStar (r : Regexp)
| OpCapture (i : nat) (r : Regexp).

(** An alternation [r1|r2|...|rn], tried from left to right. *)
Definition alternate (rs : list Regexp) : Regexp :=
  foldr OpAlternate OpNoMatch rs.

(** A continuation receives the unread input and the capture slots. *)
Definition Cont : Type := string → list string → option (list string).

(** The greedy iteration of [OpStar]: [step] matches the body once.  Each
    round must consume input, so [String.length s] rounds of [fuel] are
    enough; when the body fails or its continuation does, the iteration
    stops here and [k] goes on. *)
Fixpoint star_loop (step : string → list string → Cont → option (list string))
    (k : Cont) (fuel : nat) (s : string) (caps : list string)
  : option (list string) :=
  match fuel with
  | O => k s caps
  | S fuel' =>
      match
        step s caps
          (λ s' caps',
             if (String.length s' <? String.length s)%nat
             then star_loop step k fuel' s' caps' else None)
      with
      | Some res => Some res
      | None => k s caps
      end
  end.

(** [backtrack r s caps k]: the first way, in the order a backtracking
    engine explores them, to match [r] at the head of [s] so that [k]
    accepts what follows. *)
Fixpoint backtrack (r : Regexp) (s : string) (caps : list string) (k : Cont)
  : option (list string) :=
  match r with
  | OpNoMatch => None
  | OpLiteral lit =>
      match cut_prefix lit s with
      | Some s' => k s' caps
      | None => None
      end
  | OpAnyCharNotNL =>
      match s with
      | String c s' => if Ascii.eqb c newline then None else k s' caps
      | EmptyString => None
      end
  | OpCharClass class =>
      match s with
      | String c s' => if existsb (Ascii.eqb c) class then k s' caps else None
      | EmptyString => None
      end
  | OpConcat r1 r2 =>
      backtrack r1 s caps (λ s' caps', backtrack r2 s' caps' k)
  | OpAlternate r1 r2 =>
      match backtrack r1 s caps k with
      | Some res => Some res
      | None => backtrack r2 s caps k
      end
  | OpStar r' => star_loop (backtrack r') k (String.length s) s caps
  | OpCapture i r' =>
      backtrack r' s caps (λ s' caps', k s' (<[i := consumed s s']> caps'))
  end.

(** [NumSubexp]: the number of parenthesised groups. *)
Fixpoint NumSubexp (r : Regexp) : nat :=
  match r with
  | OpConcat r1 r2 | OpAlternate r1 r2 => NumSubexp r1 + NumSubexp r2
  | OpStar r' => NumSubexp r'
  | OpCapture _ r' => S (NumSubexp r')
  | _ => 0
  end.

(** The unanchored search: the leftmost start position that has a match. *)
Fixpoint search (re : Regexp) (s : string) : option (list string) :=
  match
    backtrack (OpCapture 0 re) s (replicate (S (NumSubexp re)) "")
      (λ _ caps, Some caps)
  with
  | Some caps => Some caps
  | None =>
      match s with
      | EmptyString => None
      | String _ s' => search re s'
      end
  end.

(** [Regexp.FindStringSubmatch]: the text of the leftmost match and of
    its groups, [nil] when there is no match. *)
Definition FindStringSubmatch (re : Regexp) (s : string) : list string :=
  default [] (search re s).

End regexp.

Import regexp.

(* ===================================================================== *)
(** * [matcher] *)
(* ===================================================================== *)

(** The literals of the second group, in the order of the source. *)
Definition resources : list string :=
  [ "index.html"; "doc.json"; "favicon-16x16.png"; "favicon-32x32.png";
    "/oauth2-redirect.html"; "swagger-ui.css"; "swagger-ui.css.map";
    "swagger-ui.js"; "swagger-ui.js.map"; "swagger-ui-bundle.js";
    "swagger-ui-bundle.js.map"; "swagger-ui-standalone-preset.js";
    "swagger-ui-standalone-preset.js.map" ].

(** The pattern compiled by [regexp.MustCompile]: a greedy run of any
    characters but newline (group 1), one of the literals (group 2), and a
    greedy run over the class of [?], [|] and [.]. *)
Definition matcher : Regexp :=
  OpConcat (OpCapture 1 (OpStar OpAnyCharNotNL))
    (OpConcat (OpCapture 2 (alternate (OpLiteral <$> resources)))
       (OpStar (OpCharClass ["?"; "|"; "."]%char))).

(* ===================================================================== *)
(** * Package [filepath] *)
(* ===================================================================== *)

Module filepath.

(** The loop of [filepath.Ext], [n] being [i + 1]: it walks back from the
    last byte, stops at a path separator and returns [path[i:]] at a dot. *)
Fixpoint Ext_loop (path : string) (n : nat) : string :=
  match n with
  | O => ""
  | S i =>
      match String.get i path with
      | Some c =>
          if Ascii.eqb c "/" then ""
          else if Ascii.eqb c "." then substring i (String.length path - i) path
          else Ext_loop path i
      | None => ""
      end
  end.

Definition Ext (path : string) : string := Ext_loop path (String.length path).

End filepath.

(* ===================================================================== *)
(** * The collaborators: [swag], [webdav], [bytes], [app], [sync] *)
(* ===================================================================== *)

(** These packages are imported by [swagger.go], not part of it.  Each is
    modelled as far as the handler uses it, after its documentation. *)

Module swag.

(** [swag.Name], the name a document is registered under by default. *)
Definition Name : string := "swagger".

(** [swag.ReadDoc name] against the registry [swags]: the document
    registered under [name], or an error ([None]). *)
Definition ReadDoc (swags : gmap string string) (name : string)
  : option string := swags !! name.

(** [swag.Register]. *)
Definition Register (name doc : string) (swags : gmap string string)
  : gmap string string := <[name := doc]> swags.

End swag.

Module io.

(** The error of a [Read]: [io.EOF] or any other error. *)
Inductive error : Type := EOF | ErrOther.

(** An open file as an [io.Reader]: the successive results of [Read], each
    the bytes delivered and the error returned with them.  A reader whose
    results are used up is at end of file. *)
Definition Reader : Type := list (string * option error).

End io.

Module bytes.

(** [Buffer.ReadFrom]: append what [r] delivers until [io.EOF], which is
    not reported, or until another error, which is. *)
Fixpoint ReadFrom (buf : string) (r : io.Reader) : string * option io.error :=
  match r with
  | [] => (buf, None)
  | (data, e) :: r' =>
      let buf := buf ++ data in
      match e with
      | Some io.EOF => (buf, None)
      | Some e => (buf, Some e)
      | None => ReadFrom buf r'
      end
  end.

End bytes.

Module webdav.

(** [webdav.FileSystem], restricted to [OpenFile] for reading: the opened
    file, or [None] for an error. *)
Definition FileSystem : Type := string → option io.Reader.

Record Handler : Type := mkHandler {
  Prefix : string;
  FileSystem_ : FileSystem
}.

Definition set_Prefix (p : string) (h : Handler) : Handler :=
  {| Prefix := p; FileSystem_ := FileSystem_ h |}.

End webdav.

Module consts.
Definition MethodGet : string := "GET".
End consts.

Module http.
Definition StatusOK : nat := 200.
Definition StatusNotFound : nat := 404.
Definition StatusMethodNotAllowed : nat := 405.
Definition StatusInternalServerError : nat := 500.

(** [http.StatusText] on the codes above. *)
Definition StatusText (code : nat) : string :=
  if (code =? StatusOK)%nat then "OK"
  else if (code =? StatusNotFound)%nat then "Not Found"
  else if (code =? StatusMethodNotAllowed)%nat then "Method Not Allowed"
  else if (code =? StatusInternalServerError)%nat then "Internal Server Error"
  else "".
End http.

Module app.

(** [app.RequestContext]: the request line and the response under
    construction.  [aborted] records [Abort]. *)
Record RequestContext : Type := mkRequestContext {
  Method : string;
  URI : string;
  StatusCode : nat;
  Header_ : gmap string string;
  Body : string;
  aborted : bool
}.

(** The context the framework hands to the handler: status 200, no header,
    no body. *)
Definition NewContext (method uri : string) : RequestContext :=
  {| Method := method; URI := uri; StatusCode := http.StatusOK;
     Header_ := ∅; Body := ""; aborted := false |}.

Definition AbortWithStatus (code : nat) (ctx : RequestContext)
  : RequestContext :=
  {| Method := Method ctx; URI := URI ctx; StatusCode := code;
     Header_ := Header_ ctx; Body := Body ctx; aborted := true |}.

Definition Header (key value : string) (ctx : RequestContext)
  : RequestContext :=
  {| Method := Method ctx; URI := URI ctx; StatusCode := StatusCode ctx;
     Header_ := <[key := value]> (Header_ ctx); Body := Body ctx;
     aborted := aborted ctx |}.

(** [ctx.Write]: appends to the response body; it reports no error. *)
Definition Write (p : string) (ctx : RequestContext)
  : RequestContext * option io.error :=
  ({| Method := Method ctx; URI := URI ctx; StatusCode := StatusCode ctx;
      Header_ := Header_ ctx; Body := Body ctx ++ p;
      aborted := aborted ctx |}, None).

(** [ctx.String]: the status, a plain-text content type and the text. *)
Definition String_ (code : nat) (text : string) (ctx : RequestContext)
  : RequestContext :=
  {| Method := Method ctx; URI := URI ctx; StatusCode := code;
     Header_ := <["Content-Type" := "text/plain; charset=utf-8"]> (Header_ ctx);
     Body := Body ctx ++ text; aborted := aborted ctx |}.

End app.

Module sync.

(** [sync.Once]: whether [Do] has run its function. *)
Definition Once : Type := bool.

(** [once.Do f] on the state [a] that [f] writes. *)
Definition Do {A : Type} (once : Once) (f : A → A) (a : A) : Once * A :=
  if once then (once, a) else (true, f a).

End sync.

(* ===================================================================== *)
(** * [swaggerConfig] and [Config] *)
(* ===================================================================== *)

Module swaggerConfig.
Record t : Type := mk {
  URL : string;
  DocExpansion : string;
  Title : string;
  Oauth2RedirectURL : string;
  DefaultModelsExpandDepth : Z;
  DeepLinking : bool;
  PersistAuthorization : bool;
  Oauth2DefaultClientID : string;
  SyntaxHighlight : bool
}.
End swaggerConfig.

Module Config.
(** [Config] stores the configuration variables; Go's [int] is read as an
    integer, no arithmetic is done on it. *)
Record t : Type := mk {
  URL : string;
  DocExpansion : string;
  InstanceName : string;
  Title : string;
  DefaultModelsExpandDepth : Z;
  DeepLinking : bool;
  PersistAuthorization : bool;
  Oauth2DefaultClientID : string;
  SyntaxHighlight : bool
}.

(** The assignments [c.Field = v]. *)
Definition set_URL (v : string) (c : t) : t :=
  mk v (DocExpansion c) (InstanceName c) (Title c)
    (DefaultModelsExpandDepth c) (DeepLinking c) (PersistAuthorization c)
    (Oauth2DefaultClientID c) (SyntaxHighlight c).
Definition set_DocExpansion (v : string) (c : t) : t :=
  mk (URL c) v (InstanceName c) (Title c)
    (DefaultModelsExpandDepth c) (DeepLinking c) (PersistAuthorization c)
    (Oauth2DefaultClientID c) (SyntaxHighlight c).
Definition set_InstanceName (v : string) (c : t) : t :=
  mk (URL c) (DocExpansion c) v (Title c)
    (DefaultModelsExpandDepth c) (DeepLinking c) (PersistAuthorization c)
    (Oauth2DefaultClientID c) (SyntaxHighlight c).
Definition set_Title (v : string) (c : t) : t :=
  mk (URL c) (DocExpansion c) (InstanceName c) v
    (DefaultModelsExpandDepth c) (DeepLinking c) (PersistAuthorization c)
    (Oauth2DefaultClientID c) (SyntaxHighlight c).
Definition set_DefaultModelsExpandDepth (v : Z) (c : t) : t :=
  mk (URL c) (DocExpansion c) (InstanceName c) (Title c)
    v (DeepLinking c) (PersistAuthorization c)
    (Oauth2DefaultClientID c) (SyntaxHighlight c).
Definition set_DeepLinking (v : bool) (c : t) : t :=
  mk (URL c) (DocExpansion c) (InstanceName c) (Title c)
    (DefaultModelsExpandDepth c) v (PersistAuthorization c)
    (Oauth2DefaultClientID c) (SyntaxHighlight c).
Definition set_PersistAuthorization (v : bool) (c : t) : t :=
  mk (URL c) (DocExpansion c) (InstanceName c) (Title c)
    (DefaultModelsExpandDepth c) (DeepLinking c) v
    (Oauth2DefaultClientID c) (SyntaxHighlight c).
Definition set_Oauth2DefaultClientID (v : string) (c : t) : t :=
  mk (URL c) (DocExpansion c) (InstanceName c) (Title c)
    (DefaultModelsExpandDepth c) (DeepLinking c) (PersistAuthorization c)
    v (SyntaxHighlight c).
Definition set_SyntaxHighlight (v : bool) (c : t) : t :=
  mk (URL c) (DocExpansion c) (InstanceName c) (Title c)
    (DefaultModelsExpandDepth c) (DeepLinking c) (PersistAuthorization c)
    (Oauth2DefaultClientID c) v.
End Config.

Definition toSwaggerConfig (config : Config.t) : swaggerConfig.t :=
  {| swaggerConfig.URL := Config.URL config;
     swaggerConfig.DeepLinking := Config.DeepLinking config;
     swaggerConfig.DocExpansion := Config.DocExpansion config;
     swaggerConfig.DefaultModelsExpandDepth :=
       Config.DefaultModelsExpandDepth config;
     swaggerConfig.Oauth2RedirectURL :=
       "`${window.location.protocol}//${window.location.host}$" ++
       "{window.location.pathname.split('/').slice(0, window.location.pathname.split('/').length - 1).join('/')}" ++
       "/oauth2-redirect.html`";
     swaggerConfig.Title := Config.Title config;
     swaggerConfig.PersistAuthorization := Config.PersistAuthorization config;
     swaggerConfig.Oauth2DefaultClientID :=
       Config.Oauth2DefaultClientID config;
     swaggerConfig.SyntaxHighlight := Config.SyntaxHighlight config |}.

(** ** The option functions, each a function on a [Config] pointer *)

Definition SyntaxHighlight (syntaxHighlight : bool) : Config.t → Config.t :=
  λ c, Config.set_SyntaxHighlight syntaxHighlight c.

Definition URL (url : string) : Config.t → Config.t :=
  λ c, Config.set_URL url c.

Definition DocExpansion (docExpansion : string) : Config.t → Config.t :=
  λ c, Config.set_DocExpansion docExpansion c.

Definition DeepLinking (deepLinking : bool) : Config.t → Config.t :=
  λ c, Config.set_DeepLinking deepLinking c.

Definition DefaultModelsExpandDepth (depth : Z) : Config.t → Config.t :=
  λ c, Config.set_DefaultModelsExpandDepth depth c.

Definition InstanceName (name : string) : Config.t → Config.t :=
  λ c, Config.set_InstanceName name c.

Definition PersistAuthorization (persistAuthorization : bool)
  : Config.t → Config.t :=
  λ c, Config.set_PersistAuthorization persistAuthorization c.

Definition Oauth2DefaultClientID (oauth2DefaultClientID : string)
  : Config.t → Config.t :=
  λ c, Config.set_Oauth2DefaultClientID oauth2DefaultClientID c.

(** The fields an option function of the package can write. *)
Inductive Field : Type :=
| FSyntaxHighlight | FURL | FDocExpansion | FDeepLinking
| FDefaultModelsExpandDepth | FInstanceName | FPersistAuthorization
| FOauth2DefaultClientID.

(** A call of one of the eight option constructors with its argument. *)
Inductive OptionCall : Type :=
| CallSyntaxHighlight (syntaxHighlight : bool)
| CallURL (url : string)
| CallDocExpansion (docExpansion : string)
| CallDeepLinking (deepLinking : bool)
| CallDefaultModelsExpandDepth (depth : Z)
| CallInstanceName (name : string)
| CallPersistAuthorization (persistAuthorization : bool)
| CallOauth2DefaultClientID (oauth2DefaultClientID : string).

(** The option function the call returns. *)
Definition option_of (o : OptionCall) : Config.t → Config.t :=
  match o with
  | CallSyntaxHighlight b => SyntaxHighlight b
  | CallURL s => URL s
  | CallDocExpansion s => DocExpansion s
  | CallDeepLinking b => DeepLinking b
  | CallDefaultModelsExpandDepth d => DefaultModelsExpandDepth d
  | CallInstanceName s => InstanceName s
  | CallPersistAuthorization b => PersistAuthorization b
  | CallOauth2DefaultClientID s => Oauth2DefaultClientID s
  end.

(** The field that option function assigns. *)
Definition field_of (o : OptionCall) : Field :=
  match o with
  | CallSyntaxHighlight _ => FSyntaxHighlight
  | CallURL _ => FURL
  | CallDocExpansion _ => FDocExpansion
  | CallDeepLinking _ => FDeepLinking
  | CallDefaultModelsExpandDepth _ => FDefaultModelsExpandDepth
  | CallInstanceName _ => FInstanceName
  | CallPersistAuthorization _ => FPersistAuthorization
  | CallOauth2DefaultClientID _ => FOauth2DefaultClientID
  end.

(** The loop [for _, c := range options { c(&config) }]. *)
Definition apply_options (config : Config.t)
    (options : list (Config.t → Config.t)) : Config.t :=
  foldl (λ config c, c config) config options.

(** The defaults of [WrapHandler]; [SyntaxHighlight] is left at its zero
    value. *)
Definition default_config : Config.t :=
  {| Config.URL := "doc.json";
     Config.DocExpansion := "list";
     Config.InstanceName := swag.Name;
     Config.Title := "Swagger UI";
     Config.DefaultModelsExpandDepth := 1;
     Config.DeepLinking := true;
     Config.PersistAuthorization := false;
     Config.Oauth2DefaultClientID := "";
     Config.SyntaxHighlight := false |}.

(* ===================================================================== *)
(** * [WrapHandler] and [CustomWrapHandler] *)
(* ===================================================================== *)

Module template.
(** A parsed [html/template]: what [Execute] writes for the data it is
    given.  The error of [Execute] is dropped by the handler. *)
Definition Template : Type := swaggerConfig.t → string.
End template.

(** The reads a request makes of its collaborators, in order. *)
Inductive Call : Type :=
| CallExecute (data : swaggerConfig.t)
| CallReadDoc (name : string)
| CallOpenFile (name : string).

(** The variables the returned function closes over: the [config] it reads,
    [once] and the parsed [index] template.  The [handler] pointer is not
    among them: the [webdav.Handler] it leads to belongs to the caller, who
    may hand the same one to several handlers, so its state goes into each
    call and comes back out. *)
Record Closure : Type := mkClosure {
  config : Config.t;
  once : sync.Once;
  index : template.Template
}.

(** The outcome of one call of the returned function: the closure and the
    [webdav.Handler] after it, the response, and the reads it made. *)
Record Result : Type := mkResult {
  closure : Closure;
  res_handler : webdav.Handler;
  response : app.RequestContext;
  calls : list Call
}.

(** [CustomWrapHandler config handler]; [index] is the result of parsing
    [swaggerIndexTpl], which [html/template] does.  Nothing of [handler] is
    read or written before the first request. *)
Definition CustomWrapHandler (index : template.Template)
    (config : Config.t) : Closure :=
  let config :=
    if Config.InstanceName config =? "" then
      Config.set_InstanceName swag.Name config
    else config in
  let config :=
    if Config.Title config =? "" then Config.set_Title "Swagger UI" config
    else config in
  {| config := config; once := false; index := index |}.

(** [WrapHandler handler options...] *)
Definition WrapHandler (index : template.Template)
    (options : list (Config.t → Config.t)) : Closure :=
  let config := apply_options default_config options in
  CustomWrapHandler index config.

(** The function [CustomWrapHandler] returns, called on [ctx] while its
    [handler] pointer leads to [handler] and the registry of [swag] is
    [swags]. *)
Definition serve (f : Closure) (handler : webdav.Handler)
    (swags : gmap string string) (ctx : app.RequestContext) : Result :=
  if negb (app.Method ctx =? consts.MethodGet) then
    let ctx := app.AbortWithStatus http.StatusMethodNotAllowed ctx in
    mkResult f handler ctx []
  else
    let matches := FindStringSubmatch matcher (app.URI ctx) in
    if negb (List.length matches =? 3)%nat then
      let ctx :=
        app.String_ http.StatusNotFound
          (http.StatusText http.StatusNotFound) ctx in
      mkResult f handler ctx []
    else
      let path := nth 2 matches "" in
      let '(once', handler) :=
        sync.Do (once f) (webdav.set_Prefix (nth 1 matches "")) handler in
      let f := mkClosure (config f) once' (index f) in
      let ext := filepath.Ext path in
      let ctx :=
        if ext =? ".html" then
          app.Header "Content-Type" "text/html; charset=utf-8" ctx
        else if ext =? ".css" then
          app.Header "Content-Type" "text/css; charset=utf-8" ctx
        else if ext =? ".js" then
          app.Header "Content-Type" "application/javascript" ctx
        else if ext =? ".png" then
          app.Header "Content-Type" "image/png" ctx
        else if ext =? ".json" then
          app.Header "Content-Type" "application/json; charset=utf-8" ctx
        else ctx in
      if path =? "index.html" then
        let data := toSwaggerConfig (config f) in
        let '(ctx, _) := app.Write (index f data) ctx in
        mkResult f handler ctx [CallExecute data]
      else if path =? "doc.json" then
        let name := Config.InstanceName (config f) in
        match swag.ReadDoc swags name with
        | None =>
            let ctx :=
              app.AbortWithStatus http.StatusInternalServerError ctx in
            mkResult f handler ctx [CallReadDoc name]
        | Some doc =>
            match app.Write doc ctx with
            | (ctx, Some _) =>
                let ctx :=
                  app.AbortWithStatus http.StatusInternalServerError ctx in
                mkResult f handler ctx [CallReadDoc name]
            | (ctx, None) => mkResult f handler ctx [CallReadDoc name]
            end
        end
      else
        match webdav.FileSystem_ handler path with
        | None =>
            let ctx :=
              app.AbortWithStatus http.StatusInternalServerError ctx in
            mkResult f handler ctx [CallOpenFile path]
        | Some file =>
            match bytes.ReadFrom "" file with
            | (_, Some _) =>
                let ctx :=
                  app.AbortWithStatus http.StatusInternalServerError ctx in
                mkResult f handler ctx [CallOpenFile path]
            | (buf, None) =>
                match app.Write buf ctx with
                | (ctx, Some _) =>
                    let ctx :=
                      app.AbortWithStatus http.StatusInternalServerError
                        ctx in
                    mkResult f handler ctx [CallOpenFile path]
                | (ctx, None) => mkResult f handler ctx [CallOpenFile path]
                end
            end
        end.

(** A request as the framework delivers it: the registry of [swag] at that
    time, the method and the text of [ctx.Request.URI().String()]. *)
Record Request : Type := mkRequest {
  req_swags : gmap string string;
  req_method : string;
  req_uri : string
}.

(** One request on a new context. *)
Definition serve_request (f : Closure) (handler : webdav.Handler)
    (r : Request) : Result :=
  serve f handler (req_swags r) (app.NewContext (req_method r) (req_uri r)).

(** One handler serving the requests one after the other, no one else
    writing to its [webdav.Handler] meanwhile: the closure and the
    [webdav.Handler] one call leaves are those of the next. *)
Fixpoint serve_all (f : Closure) (handler : webdav.Handler)
    (reqs : list Request) : list Result :=
  match reqs with
  | [] => []
  | r :: reqs' =>
      let res := serve_request f handler r in
      res :: serve_all (closure res) (res_handler res) reqs'
  end.

(** The closure and the [webdav.Handler] such a run ends with. *)
Fixpoint after_all (f : Closure) (handler : webdav.Handler)
    (reqs : list Request) : Closure * webdav.Handler :=
  match reqs with
  | [] => (f, handler)
  | r :: reqs' =>
      let res := serve_request f handler r in
      after_all (closure res) (res_handler res) reqs'
  end.

(* ===================================================================== *)
(** * What [matcher] recognises, stated on the text *)
(* ===================================================================== *)

(** The first literal of [lits], in their order, that [s] starts with, and
    what follows it. *)
Fixpoint first_literal (lits : list string) (s : string)
  : option (string * string) :=
  match lits with
  | [] => None
  | lit :: lits' =>
      match cut_prefix lit s with
      | Some rest => Some (lit, rest)
      | None => first_literal lits' s
      end
  end.

(** The longest run of characters of [class] at the head of [s]. *)
Fixpoint class_run (class : list ascii) (s : string) : string :=
  match s with
  | String c s' =>
      if existsb (Ascii.eqb c) class then String c (class_run class s')
      else ""
  | EmptyString => ""
  end.

(** The split of [s] at the last place, reached from its head without
    crossing a newline, where a resource literal starts: what is before,
    the literal, what is after. *)
Fixpoint last_hit (s : string) : option (string * string * string) :=
  let here :=
    match first_literal resources s with
    | Some (name, rest) => Some ("", name, rest)
    | None => None
    end in
  match s with
  | EmptyString => here
  | String c s' =>
      if Ascii.eqb c newline then here
      else
        match last_hit s' with
        | Some (pre, name, rest) => Some (String c pre, name, rest)
        | None => here
        end
  end.

(** A resource literal starts somewhere in [s]. *)
Fixpoint has_resource (s : string) : bool :=
  match first_literal resources s with
  | Some _ => true
  | None =>
      match s with
      | EmptyString => false
      | String _ s' => has_resource s'
      end
  end.

(** The allow-list shape: anything, then a recognised resource name, then
    anything. *)
Definition recognized (uri : string) : Prop :=
  ∃ pre name rest, uri = pre ++ name ++ rest ∧ name ∈ resources.

(** The three slices a match of [matcher] yields for a split. *)
Definition submatches (split : string * string * string) : list string :=
  let '(pre, name, rest) := split in
  [pre ++ name ++ class_run ["?"; "|"; "."]%char rest; pre; name].

(** The split found by the unanchored search: the first start position, from
    the left, that has one. *)
Fixpoint leftmost_hit (s : string) : option (string * string * string) :=
  match last_hit s with
  | Some split => Some split
  | None =>
      match s with
      | EmptyString => None
      | String _ s' => leftmost_hit s'
      end
  end.

(** A continuation that accepts whatever it is given. *)
Definition total (k : Cont) : Prop := ∀ s caps, is_Some (k s caps).

(** The capture slots before a match: the whole match and two groups. *)
Definition no_caps : list string := [""; ""; ""].

(** What follows group 1 in [matcher], for a search started on [s0]. *)
Definition after_prefix (s0 : string) : Cont :=
  λ s1 caps1,
    backtrack
      (OpConcat (OpCapture 2 (alternate (OpLiteral <$> resources)))
         (OpStar (OpCharClass ["?"; "|"; "."]%char)))
      s1 (<[1 := consumed s0 s1]> caps1)
      (λ s3 caps3, Some (<[0 := consumed s0 s3]> caps3)).

(* ===================================================================== *)
(** * Definitions the statements use *)
(* ===================================================================== *)

(** What group 1 captures for a request that passes the method test and
    the match test, the two tests before [once.Do]. *)
Definition captured_prefix (r : Request) : option string :=
  if negb (req_method r =? consts.MethodGet) then None
  else
    let matches := FindStringSubmatch matcher (req_uri r) in
    if negb (List.length matches =? 3)%nat then None
    else Some (nth 1 matches "").

(** The capture of the first request of [reqs] that has one. *)
Fixpoint first_captured (reqs : list Request) : option string :=
  match reqs with
  | [] => None
  | r :: reqs' =>
      match captured_prefix r with
      | Some p => Some p
      | None => first_captured reqs'
      end
  end.

(** The content types the specification lists, by extension. *)
Definition content_types : list (string * string) :=
  [ (".html", "text/html; charset=utf-8");
    (".css", "text/css; charset=utf-8");
    (".js", "application/javascript");
    (".png", "image/png");
    (".json", "application/json; charset=utf-8") ].

(** The first entry of an association list under a key. *)
Fixpoint assoc (key : string) (table : list (string * string))
  : option string :=
  match table with
  | [] => None
  | (k, v) :: table' => if key =? k then Some v else assoc key table'
  end.

(** The names group 2 can take: the literals that no earlier literal is a
    prefix of. *)
Definition served : list string :=
  [ "index.html"; "doc.json"; "favicon-16x16.png"; "favicon-32x32.png";
    "/oauth2-redirect.html"; "swagger-ui.css"; "swagger-ui.js";
    "swagger-ui-bundle.js"; "swagger-ui-standalone-preset.js" ].


(** The names the registry was asked for among [cs]. *)
Fixpoint read_doc_names (cs : list Call) : list string :=
  match cs with
  | [] => []
  | CallReadDoc name :: cs' => name :: read_doc_names cs'
  | _ :: cs' => read_doc_names cs'
  end.

(* ===================================================================== *)
(** * The collaborators of [swagger_test.go] *)
(* ===================================================================== *)

(** [mockedSwag.ReadDoc]: an opening brace, a newline, a closing brace. *)
Definition mocked_doc : string := "{" ++ String newline "}".

(** A stand-in for the parsed index template. *)
Definition test_index : template.Template :=
  λ data, "<title>" ++ swaggerConfig.Title data ++ "</title>".

(** A file system with three of the assets; the read of [swagger-ui.js]
    fails after a first piece has been delivered. *)
Definition test_files : webdav.FileSystem :=
  λ name,
    if name =? "favicon-16x16.png" then Some [("PNG", None); ("", Some io.EOF)]
    else if name =? "swagger-ui.css" then Some [("a{}", Some io.EOF)]
    else if name =? "swagger-ui-bundle.js" then
      Some [("var a", None); (";", None); ("", Some io.EOF)]
    else if name =? "swagger-ui.js" then
      Some [("var a", None); ("", Some io.ErrOther)]
    else None.

(** [swaggerFiles.Handler]. *)
Definition test_handler : webdav.Handler := webdav.mkHandler "" test_files.

(** [CustomWrapHandler(&Config{}, swaggerFiles.Handler)]. *)
Definition test_closure : Closure :=
  CustomWrapHandler test_index (Config.mk "" "" "" "" 0 false false "" false).

(** The registry after [swag.Register(swag.Name, doc)]. *)
Definition test_swags : gmap string string :=
  swag.Register swag.Name mocked_doc ∅.

(* ===================================================================== *)
(** * Fields and their values *)
(* ===================================================================== *)

(** What a field set by an option holds: a [bool], a [string] or an [int]. *)
Inductive Value : Type :=
| VBool (b : bool)
| VString (s : string)
| VInt (z : Z).

(** The argument an option constructor was called with. *)
Definition arg_of (o : OptionCall) : Value :=
  match o with
  | CallSyntaxHighlight b => VBool b
  | CallURL s => VString s
  | CallDocExpansion s => VString s
  | CallDeepLinking b => VBool b
  | CallDefaultModelsExpandDepth d => VInt d
  | CallInstanceName s => VString s
  | CallPersistAuthorization b => VBool b
  | CallOauth2DefaultClientID s => VString s
  end.

(** The field of a configuration, read. *)
Definition field_value (F : Field) (c : Config.t) : Value :=
  match F with
  | FSyntaxHighlight => VBool (Config.SyntaxHighlight c)
  | FURL => VString (Config.URL c)
  | FDocExpansion => VString (Config.DocExpansion c)
  | FDeepLinking => VBool (Config.DeepLinking c)
  | FDefaultModelsExpandDepth => VInt (Config.DefaultModelsExpandDepth c)
  | FInstanceName => VString (Config.InstanceName c)
  | FPersistAuthorization => VBool (Config.PersistAuthorization c)
  | FOauth2DefaultClientID => VString (Config.Oauth2DefaultClientID c)
  end.

#[global] Instance Field_eq_dec : EqDecision Field.
Proof. solve_decision. Defined.

(** The argument of the last of [os] that assigns [F], and [init] when none
    of them does. *)
Fixpoint last_assigned (F : Field) (os : list OptionCall) (init : Value)
  : Value :=
  match os with
  | [] => init
  | o :: os' =>
      last_assigned F os' (if decide (field_of o = F) then arg_of o else init)
  end.

(** What a client sees of a response: status, headers, body and whether the
    chain of handlers was aborted. *)
Definition reply (ctx : app.RequestContext)
  : nat * gmap string string * string * bool :=
  (app.StatusCode ctx, app.Header_ ctx, app.Body ctx, app.aborted ctx).

(** The data the index template was executed on among [cs]. *)
Fixpoint executed_data (cs : list Call) : list swaggerConfig.t :=
  match cs with
  | [] => []
  | CallExecute data :: cs' => data :: executed_data cs'
  | _ :: cs' => executed_data cs'
  end.

(** The names given to [OpenFile] among [cs]. *)
Fixpoint opened_files (cs : list Call) : list string :=
  match cs with
  | [] => []
  | CallOpenFile name :: cs' => name :: opened_files cs'
  | _ :: cs' => opened_files cs'
  end.

(** The literals that have a [.map] alternative after them. *)
Definition mapped : list string :=
  [ "swagger-ui.css"; "swagger-ui.js"; "swagger-ui-bundle.js";
    "swagger-ui-standalone-preset.js" ].

(** The names group 2 can take that go to the file system. *)
Definition assets : list string :=
  [ "favicon-16x16.png"; "favicon-32x32.png"; "/oauth2-redirect.html";
    "swagger-ui.css"; "swagger-ui.js"; "swagger-ui-bundle.js";
    "swagger-ui-standalone-preset.js" ].

(** The content types the handler sends on a GET: those of the table, and
    the plain text of [ctx.String]. *)
Definition sent_content_types : list string :=
  "text/plain; charset=utf-8" :: (snd <$> content_types).

(* ===================================================================== *)
(** * Strings: append, length, prefixes *)
(* ===================================================================== *)

(** [String.append] does not unfold under [simpl]; its two equations. *)
Lemma string_app_nil_l (s : string) : "" ++ s = s.
Proof. reflexivity. Qed.

Lemma string_app_cons (c : ascii) (a b : string) :
  String c a ++ b = String c (a ++ b).
Proof. reflexivity. Qed.

Lemma string_app_nil_r (s : string) : s ++ "" = s.
Proof.
  induction s as [|c s IH]; [reflexivity|].
  now rewrite string_app_cons, IH.
Qed.

Lemma string_app_assoc (a b c : string) : (a ++ b) ++ c = a ++ b ++ c.
Proof.
  induction a as [|x a IH]; [reflexivity|].
  now rewrite !string_app_cons, IH.
Qed.

Lemma string_length_app (a b : string) :
  String.length (a ++ b) = String.length a + String.length b.
Proof.
  induction a as [|x a IH]; [reflexivity|].
  rewrite string_app_cons. simpl. now rewrite IH.
Qed.

Lemma substring_app_l (a b : string) :
  substring 0 (String.length a) (a ++ b) = a.
Proof.
  induction a as [|x a IH].
  - rewrite string_app_nil_l. destruct b; reflexivity.
  - rewrite string_app_cons. simpl. now rewrite IH.
Qed.

Lemma consumed_app (a b : string) : consumed (a ++ b) b = a.
Proof.
  unfold consumed. rewrite string_length_app.
  replace (String.length a + String.length b - String.length b)
    with (String.length a) by lia.
  apply substring_app_l.
Qed.

Lemma cut_prefix_app (l s rest : string) :
  cut_prefix l s = Some rest ↔ s = l ++ rest.
Proof.
  revert s. induction l as [|a l IH]; intros s.
  - rewrite string_app_nil_l. simpl.
    split; [now intros [= ->] | now intros ->].
  - rewrite string_app_cons. simpl.
    destruct s as [|b s]; [split; discriminate|].
    destruct (Ascii.eqb_spec a b) as [->|Hne].
    + rewrite IH. split; [now intros -> | now intros [= ->]].
    + split; [discriminate | intros [= ? ?]; congruence].
Qed.


Lemma first_literal_Some lits s name rest :
  first_literal lits s = Some (name, rest) →
  s = name ++ rest ∧ name ∈ lits.
Proof.
  induction lits as [|lit lits IH]; simpl; [discriminate|].
  destruct (cut_prefix lit s) as [r|] eqn:E.
  - intros [= <- <-]. apply cut_prefix_app in E. split; [done | left].
  - intros H. destruct (IH H) as [? ?]. split; [done | now right].
Qed.

Lemma first_literal_None lits s name rest :
  first_literal lits s = None → name ∈ lits → s ≠ name ++ rest.
Proof.
  induction lits as [|lit lits IH]; simpl; intros H Hin.
  - inversion Hin.
  - destruct (cut_prefix lit s) as [r|] eqn:E; [discriminate|].
    apply elem_of_cons in Hin as [->|Hin]; [|now apply IH].
    intros Heq. apply cut_prefix_app in Heq. congruence.
Qed.

(* ===================================================================== *)
(** * The backtracking engine on the pieces of [matcher] *)
(* ===================================================================== *)

Section Engine.

Implicit Types (s : string) (caps : list string) (k : Cont).

(** An alternation of literals followed by a total continuation commits
    to the first literal that fits. *)
Lemma backtrack_alternate_literals lits s caps k :
  total k →
  backtrack (alternate (OpLiteral <$> lits)) s caps k =
  match first_literal lits s with
  | Some (_, rest) => k rest caps
  | None => None
  end.
Proof.
  intros Hk. induction lits as [|lit lits IH]; [reflexivity|].
  cbn [fmap list_fmap alternate foldr backtrack first_literal].
  destruct (cut_prefix lit s) as [rest|] eqn:E.
  - destruct (Hk rest caps) as [res ->]. reflexivity.
  - exact IH.
Qed.

Lemma star_loop_S step k fuel s caps :
  star_loop step k (S fuel) s caps =
  match
    step s caps
      (λ s' caps',
         if (String.length s' <? String.length s)%nat
         then star_loop step k fuel s' caps' else None)
  with
  | Some res => Some res
  | None => k s caps
  end.
Proof. reflexivity. Qed.

Lemma length_tail_lt c s :
  (String.length s <? String.length (String c s))%nat = true.
Proof. apply Nat.ltb_lt. simpl. lia. Qed.

(** A greedy run over a character class followed by a total continuation
    takes the longest run. *)
Lemma star_loop_class class k caps fuel s :
  total k →
  (String.length s ≤ fuel)%nat →
  ∃ rest, s = class_run class s ++ rest ∧
          star_loop (backtrack (OpCharClass class)) k fuel s caps =
          k rest caps.
Proof.
  intros Hk.
  assert (∀ s caps k,
            backtrack (OpCharClass class) s caps k =
            match s with
            | String c s' =>
                if existsb (Ascii.eqb c) class then k s' caps else None
            | EmptyString => None
            end) as Hstep by reflexivity.
  remember (backtrack (OpCharClass class)) as step eqn:Estep. clear Estep.
  revert s. induction fuel as [|fuel IH]; intros s Hlen.
  - destruct s; [|simpl in Hlen; lia]. exists "". split; reflexivity.
  - rewrite star_loop_S, Hstep. destruct s as [|c s].
    { exists "". split; reflexivity. }
    cbn [class_run]. destruct (existsb (Ascii.eqb c) class).
    + simpl in Hlen. destruct (IH s ltac:(lia)) as (rest & Hs & Hrun).
      exists rest. split; [rewrite string_app_cons; congruence|].
      rewrite length_tail_lt, Hrun.
      destruct (Hk rest caps) as [res ->]. reflexivity.
    + exists (String c s). split; reflexivity.
Qed.

Lemma backtrack_star_class class k caps s :
  total k →
  ∃ rest, s = class_run class s ++ rest ∧
          backtrack (OpStar (OpCharClass class)) s caps k = k rest caps.
Proof.
  intros Hk.
  exact (star_loop_class class k caps (String.length s) s Hk (le_n _)).
Qed.

(** The equations of [backtrack] on the operators that pass a
    continuation on. *)
Lemma backtrack_concat r1 r2 s caps k :
  backtrack (OpConcat r1 r2) s caps k =
  backtrack r1 s caps (λ s' caps', backtrack r2 s' caps' k).
Proof. reflexivity. Qed.

Lemma backtrack_capture i r s caps k :
  backtrack (OpCapture i r) s caps k =
  backtrack r s caps (λ s' caps', k s' (<[i := consumed s s']> caps')).
Proof. reflexivity. Qed.

Lemma backtrack_star r s caps k :
  backtrack (OpStar r) s caps k =
  star_loop (backtrack r) k (String.length s) s caps.
Proof. reflexivity. Qed.

End Engine.

Lemma after_prefix_eval (s0 pre s1 : string) :
  s0 = pre ++ s1 →
  after_prefix s0 s1 no_caps =
  match first_literal resources s1 with
  | Some (name, rest) => Some (submatches (pre, name, rest))
  | None => None
  end.
Proof.
  intros ->. unfold after_prefix.
  rewrite backtrack_concat, backtrack_capture.
  assert (total (λ s3 caps3,
                   Some (<[0 := consumed (pre ++ s1) s3]> caps3))) as Hk0
    by (intros ? ?; eauto).
  rewrite backtrack_alternate_literals.
  2:{ intros s caps. cbv beta.
      destruct (backtrack_star_class ["?"; "|"; "."]%char _
                  (<[2 := consumed s1 s]> caps) s Hk0) as (rest & _ & ->).
      apply Hk0. }
  destruct (first_literal resources s1) as [[name rest]|] eqn:E; [|done].
  apply first_literal_Some in E as [-> _].
  destruct (backtrack_star_class ["?"; "|"; "."]%char _
              (<[2 := consumed (name ++ rest) rest]>
                 (<[1 := consumed (pre ++ name ++ rest) (name ++ rest)]>
                    no_caps)) rest Hk0) as (tail & Hrest & ->).
  rewrite !consumed_app. f_equal. unfold submatches, no_caps. cbn.
  f_equal. rewrite Hrest at 1.
  rewrite <- !string_app_assoc. apply consumed_app.
Qed.

(** The greedy run of [.] of group 1, from a place [s] reached after
    [pre]: the engine settles on the split [last_hit] describes. *)
Lemma star_loop_any (s0 : string) (s pre : string) (fuel : nat) :
  s0 = pre ++ s →
  (String.length s ≤ fuel)%nat →
  star_loop (backtrack OpAnyCharNotNL) (after_prefix s0) fuel s no_caps =
  match last_hit s with
  | Some (p, name, rest) => Some (submatches (pre ++ p, name, rest))
  | None => None
  end.
Proof.
  assert (∀ s caps k,
            backtrack OpAnyCharNotNL s caps k =
            match s with
            | String c s' => if Ascii.eqb c newline then None else k s' caps
            | EmptyString => None
            end) as Hstep by reflexivity.
  remember (backtrack OpAnyCharNotNL) as step eqn:Estep. clear Estep.
  revert pre fuel. induction s as [|c s IH]; intros pre fuel Hs0 Hlen.
  - assert (star_loop step (after_prefix s0) fuel "" no_caps =
            after_prefix s0 "" no_caps) as ->.
    { destruct fuel; [reflexivity|]. now rewrite star_loop_S, Hstep. }
    rewrite (after_prefix_eval s0 pre "" Hs0). cbn [last_hit].
    destruct (first_literal resources "") as [[name rest]|]; [|done].
    now rewrite string_app_nil_r.
  - destruct fuel as [|fuel]; [simpl in Hlen; lia|].
    rewrite star_loop_S, Hstep. cbn [last_hit].
    rewrite (after_prefix_eval s0 pre (String c s) Hs0).
    destruct (Ascii.eqb c newline).
    { destruct (first_literal resources (String c s)) as [[name rest]|];
        [|done]. now rewrite string_app_nil_r. }
    rewrite length_tail_lt, (IH (pre ++ String c "") fuel).
    2:{ rewrite Hs0, string_app_assoc. reflexivity. }
    2:{ simpl in Hlen. lia. }
    destruct (last_hit s) as [[[p name] rest]|].
    + rewrite string_app_assoc. reflexivity.
    + destruct (first_literal resources (String c s)) as [[name rest]|];
        [|done]. now rewrite string_app_nil_r.
Qed.

(** One attempt of the search, at the head of [s]. *)
Lemma backtrack_matcher (s : string) :
  backtrack (OpCapture 0 matcher) s (replicate (S (NumSubexp matcher)) "")
    (λ _ caps, Some caps) =
  submatches <$> last_hit s.
Proof.
  change (replicate (S (NumSubexp matcher)) "") with no_caps.
  unfold matcher.
  rewrite backtrack_capture, backtrack_concat, backtrack_capture,
    backtrack_star.
  change (star_loop (backtrack OpAnyCharNotNL) (after_prefix s)
            (String.length s) s no_caps = submatches <$> last_hit s).
  rewrite (star_loop_any s s "" (String.length s)); [|reflexivity|lia].
  destruct (last_hit s) as [[[p name] rest]|]; reflexivity.
Qed.

(* ===================================================================== *)
(** * The split [matcher] settles on *)
(* ===================================================================== *)

Lemma search_matcher (s : string) :
  search matcher s = submatches <$> leftmost_hit s.
Proof.
  induction s as [|c s IH]; cbn [search leftmost_hit];
    rewrite backtrack_matcher;
    destruct (last_hit _) as [split|]; try reflexivity.
  exact IH.
Qed.

Lemma FindStringSubmatch_matcher (s : string) :
  FindStringSubmatch matcher s =
  match leftmost_hit s with
  | Some split => submatches split
  | None => []
  end.
Proof.
  unfold FindStringSubmatch. rewrite search_matcher.
  destruct (leftmost_hit s); reflexivity.
Qed.

Lemma here_None (s : string) :
  match first_literal resources s with
  | Some (name, rest) => Some ("", name, rest)
  | None => None
  end = None →
  first_literal resources s = None.
Proof. destruct (first_literal resources s) as [[? ?]|]; [discriminate|done]. Qed.

Lemma last_hit_Some (s p name rest : string) :
  last_hit s = Some (p, name, rest) →
  s = p ++ name ++ rest ∧ name ∈ resources ∧ no_newline p = true.
Proof.
  revert p. induction s as [|c s IH]; intros p; cbn [last_hit].
  - destruct (first_literal resources "") as [[n r]|] eqn:E; [|discriminate].
    intros [= <- <- <-]. apply first_literal_Some in E as [? ?]. done.
  - assert (match first_literal resources (String c s) with
            | Some (n, r) => Some ("", n, r)
            | None => None
            end = Some (p, name, rest) →
            String c s = p ++ name ++ rest ∧ name ∈ resources ∧
            no_newline p = true) as Hhere.
    { destruct (first_literal resources _) as [[n r]|] eqn:E; [|discriminate].
      intros [= <- <- <-]. apply first_literal_Some in E as [? ?]. done. }
    destruct (Ascii.eqb c newline) eqn:Ec; [exact Hhere|].
    destruct (last_hit s) as [[[p' n'] r']|]; [|exact Hhere].
    intros [= <- <- <-]. destruct (IH p' eq_refl) as (-> & ? & Hp).
    rewrite string_app_cons. cbn [no_newline]. rewrite Ec, Hp. done.
Qed.

(** Where [last_hit] finds nothing, no literal starts at a place reached
    without crossing a newline. *)
Lemma last_hit_None (s a b : string) :
  last_hit s = None →
  s = a ++ b → no_newline a = true → first_literal resources b = None.
Proof.
  revert a. induction s as [|c s IH]; intros a; cbn [last_hit].
  - intros H Hs. destruct a; [|discriminate]. rewrite string_app_nil_l in Hs.
    subst b. intros _. now apply here_None.
  - intros H Hs Ha. destruct a as [|c' a].
    + rewrite string_app_nil_l in Hs. subst b. apply here_None.
      destruct (Ascii.eqb c newline); [exact H|].
      destruct (last_hit s) as [[[? ?] ?]|]; [discriminate | exact H].
    + rewrite string_app_cons in Hs. injection Hs as <- ->.
      cbn [no_newline] in Ha. apply andb_prop in Ha as [Hc Ha].
      apply negb_true_iff in Hc. rewrite Hc in H.
      destruct (last_hit (a ++ b)) as [[[? ?] ?]|] eqn:E; [discriminate|].
      now apply (IH a).
Qed.


(** A newline-free text put in front moves the split along. *)
Lemma last_hit_app (pre t p name rest : string) :
  no_newline pre = true →
  last_hit t = Some (p, name, rest) →
  last_hit (pre ++ t) = Some (pre ++ p, name, rest).
Proof.
  intros Hpre Ht. induction pre as [|c pre IH]; [exact Ht|].
  cbn [no_newline] in Hpre. apply andb_prop in Hpre as [Hc Hpre].
  apply negb_true_iff in Hc.
  rewrite !string_app_cons. cbn [last_hit]. now rewrite Hc, (IH Hpre).
Qed.

Lemma leftmost_hit_last_hit (s : string) split :
  last_hit s = Some split → leftmost_hit s = Some split.
Proof. destruct s; cbn [leftmost_hit]; now intros ->. Qed.


Lemma leftmost_hit_Some (s p name rest : string) :
  leftmost_hit s = Some (p, name, rest) →
  ∃ skipped, s = skipped ++ p ++ name ++ rest ∧ name ∈ resources.
Proof.
  induction s as [|c s IH]; cbn [leftmost_hit].
  - destruct (last_hit "") as [split|] eqn:E; [|discriminate].
    intros [= ->]. apply last_hit_Some in E as (? & ? & _). now exists "".
  - destruct (last_hit (String c s)) as [split|] eqn:E.
    + intros [= ->]. apply last_hit_Some in E as (? & ? & _). now exists "".
    + intros H. destruct (IH H) as (skipped & -> & ?).
      now exists (String c skipped).
Qed.

(** ** [has_resource] decides the allow-list shape *)

Lemma first_literal_elem (name rest : string) :
  name ∈ resources → is_Some (first_literal resources (name ++ rest)).
Proof.
  intros Hin. destruct (first_literal resources (name ++ rest)) eqn:E; [eauto|].
  now destruct (first_literal_None _ _ name rest E Hin).
Qed.

Lemma has_resource_recognized (s : string) :
  has_resource s = true ↔ recognized s.
Proof.
  split.
  - induction s as [|c s IH]; cbn [has_resource].
    + destruct (first_literal resources "") as [[n r]|] eqn:E; [|discriminate].
      intros _. apply first_literal_Some in E as [? ?]. now exists "", n, r.
    + destruct (first_literal resources (String c s)) as [[n r]|] eqn:E.
      * intros _. apply first_literal_Some in E as [? ?]. now exists "", n, r.
      * intros H. destruct (IH H) as (pre & n & r & -> & ?).
        now exists (String c pre), n, r.
  - intros (pre & n & r & -> & Hin). induction pre as [|c pre IH].
    + rewrite string_app_nil_l.
      destruct (first_literal_elem n r Hin) as [x Hx].
      destruct (n ++ r); cbn [has_resource]; now rewrite Hx.
    + rewrite string_app_cons. cbn [has_resource].
      now destruct (first_literal resources _).
Qed.

Lemma has_resource_false_last_hit (s : string) :
  has_resource s = false → last_hit s = None.
Proof.
  induction s as [|c s IH]; cbn [has_resource last_hit];
    destruct (first_literal resources _) as [[n r]|]; try discriminate.
  - done.
  - intros H. rewrite (IH H). now destruct (Ascii.eqb c newline).
Qed.

Lemma has_resource_false_leftmost_hit (s : string) :
  has_resource s = false → leftmost_hit s = None.
Proof.
  induction s as [|c s IH]; intros H; cbn [leftmost_hit];
    rewrite (has_resource_false_last_hit _ H); [done|].
  apply IH. cbn [has_resource] in H.
  now destruct (first_literal resources (String c s)).
Qed.

Lemma has_resource_true_leftmost_hit (s : string) :
  has_resource s = true → is_Some (leftmost_hit s).
Proof.
  intros H. destruct (leftmost_hit s) as [split|] eqn:E; [eauto|].
  exfalso. revert H E. induction s as [|c s IH];
    cbn [has_resource leftmost_hit].
  - destruct (last_hit "") eqn:E1; [discriminate|]. cbn [last_hit] in E1.
    now destruct (first_literal resources "") as [[? ?]|].
  - destruct (last_hit (String c s)) eqn:E1; [discriminate|].
    rewrite (last_hit_None _ "" (String c s) E1 eq_refl eq_refl). exact IH.
Qed.

(** The request text has the shape exactly when [matcher] finds a match,
    and a match always has its three slices. *)
Lemma FindStringSubmatch_length (s : string) :
  List.length (FindStringSubmatch matcher s) =
  if has_resource s then 3 else 0.
Proof.
  rewrite FindStringSubmatch_matcher. destruct (has_resource s) eqn:E.
  - destruct (has_resource_true_leftmost_hit s E) as [[[p n] r] ->].
    reflexivity.
  - now rewrite (has_resource_false_leftmost_hit s E).
Qed.

(* ===================================================================== *)
(** * The handler on one request *)
(* ===================================================================== *)

(** Unfold [serve] on a GET whose text [matcher] splits as [Hhit] says. *)
Ltac serve_on_hit Hhit :=
  unfold serve;
  change (app.Method (app.NewContext consts.MethodGet _))
    with consts.MethodGet;
  change (negb (consts.MethodGet =? consts.MethodGet)) with false;
  cbv iota;
  match goal with
  | |- context [app.URI (app.NewContext consts.MethodGet ?u)] =>
      change (app.URI (app.NewContext consts.MethodGet u)) with u
  end;
  rewrite FindStringSubmatch_matcher, Hhit;
  cbn [submatches List.length nth Nat.eqb negb config once index].

Lemma not_recognized_has_resource (s : string) :
  ¬ recognized s → has_resource s = false.
Proof.
  intros H. destruct (has_resource s) eqn:E; [|done].
  now apply has_resource_recognized in E.
Qed.





(** C3. A request whose method is not GET is answered 405 with an empty
    body and no header, and is aborted; nothing is read from the registry
    or the file system, and the closure and the [webdav.Handler] are left
    as they were, whatever the text of the request. *)
Theorem method_not_allowed (f : Closure) (h : webdav.Handler)
    (swags : gmap string string) (method uri : string) :
  method ≠ consts.MethodGet →
  let res := serve f h swags (app.NewContext method uri) in
  app.StatusCode (response res) = http.StatusMethodNotAllowed ∧
  app.Body (response res) = "" ∧
  app.Header_ (response res) = ∅ ∧
  app.aborted (response res) = true ∧
  calls res = [] ∧
  closure res = f ∧
  res_handler res = h.
Proof.
  intros Hm res. subst res. unfold serve.
  change (app.Method (app.NewContext method uri)) with method.
  apply String.eqb_neq in Hm. rewrite Hm. cbn. repeat split.
Qed.


(* ===================================================================== *)
(** * The route prefix over the life of the handler *)
(* ===================================================================== *)

(** The closure and the [webdav.Handler] after one call: untouched when
    the request is turned away before [once.Do], and otherwise changed by
    [once.Do] alone. *)
Lemma serve_state (f : Closure) (h : webdav.Handler) (r : Request) :
  (closure (serve_request f h r), res_handler (serve_request f h r)) =
  match captured_prefix r with
  | Some p =>
      let '(once', h') := sync.Do (once f) (webdav.set_Prefix p) h in
      (mkClosure (config f) once' (index f), h')
  | None => (f, h)
  end.
Proof.
  unfold serve_request, serve, captured_prefix.
  change (app.Method (app.NewContext (req_method r) (req_uri r)))
    with (req_method r).
  change (app.URI (app.NewContext (req_method r) (req_uri r)))
    with (req_uri r).
  destruct (negb (req_method r =? consts.MethodGet)); [reflexivity|].
  destruct (negb (List.length _ =? 3)%nat); [reflexivity|].
  cbv zeta. destruct (sync.Do _ _ _) as [once' h'].
  repeat case_match; reflexivity.
Qed.

(** C4. Over any sequence of requests one handler writes the prefix at most
    once.  When its [once] has fired, [once] stays fired and the
    [webdav.Handler] is left as it is, whatever is served.  When it has not,
    the run ends with [once] fired and the capture of the first request
    that matched assigned to [Prefix], or, when no request matched, with
    both as they were. *)
Theorem route_prefix_written_once (f : Closure) (h : webdav.Handler)
    (reqs : list Request) :
  let f' := fst (after_all f h reqs) in
  let h' := snd (after_all f h reqs) in
  (once f = true → once f' = true ∧ h' = h) ∧
  (once f = false →
   match first_captured reqs with
   | Some p => once f' = true ∧ h' = webdav.set_Prefix p h
   | None => once f' = false ∧ h' = h
   end).
Proof.
  revert f h. induction reqs as [|r reqs IH]; intros f h;
    cbn [after_all first_captured fst snd].
  { split; intros ->; auto. }
  pose proof (serve_state f h r) as Hstep.
  destruct (IH (closure (serve_request f h r))
               (res_handler (serve_request f h r))) as [IHset IHunset].
  destruct (serve_request f h r) as [f1 h1 ctx1 cs1].
  cbn [closure res_handler] in *.
  destruct (captured_prefix r) as [p|]; unfold sync.Do in Hstep.
  - split; intros Ho; rewrite Ho in Hstep; injection Hstep as -> ->;
      now apply IHset.
  - injection Hstep as -> ->. split; [exact IHset | exact IHunset].
Qed.

(** Two handlers made for one [webdav.Handler] each write its prefix: the
    [once] of the second does not know of the first. *)
Lemma shared_handler_rewritten (f1 f2 : Closure) (h : webdav.Handler)
    (r1 r2 : Request) (p1 p2 : string) :
  once f1 = false → once f2 = false →
  captured_prefix r1 = Some p1 → captured_prefix r2 = Some p2 →
  let res1 := serve_request f1 h r1 in
  let res2 := serve_request f2 (res_handler res1) r2 in
  webdav.Prefix (res_handler res1) = p1 ∧
  webdav.Prefix (res_handler res2) = p2.
Proof.
  intros Ho1 Ho2 Hp1 Hp2 res1 res2.
  pose proof (serve_state f1 h r1) as H1.
  pose proof (serve_state f2 (res_handler res1) r2) as H2.
  fold res1 in H1. fold res2 in H2.
  rewrite Hp1 in H1. rewrite Hp2 in H2. unfold sync.Do in H1, H2.
  rewrite Ho1 in H1. rewrite Ho2 in H2.
  injection H1 as _ ->. injection H2 as _ ->. split; reflexivity.
Qed.



(* ===================================================================== *)
(** * Content type and dispatch *)
(* ===================================================================== *)

(** A match of [matcher], read back as a split of the text. *)
Lemma FindStringSubmatch_hit (uri m0 m1 path : string) :
  FindStringSubmatch matcher uri = [m0; m1; path] →
  ∃ rest, leftmost_hit uri = Some (m1, path, rest).
Proof.
  rewrite FindStringSubmatch_matcher.
  destruct (leftmost_hit uri) as [[[p n] r]|]; [|discriminate].
  intros [= _ <- <-]. now exists r.
Qed.

(** The headers of the response to a matched GET are the content type of
    the table for the extension of group 2, and nothing when the table has
    none. *)
Lemma content_type_by_extension (f : Closure) (h : webdav.Handler)
    (swags : gmap string string) (uri m0 m1 path : string) :
  FindStringSubmatch matcher uri = [m0; m1; path] →
  app.Header_
    (response (serve f h swags (app.NewContext consts.MethodGet uri))) =
  match assoc (filepath.Ext path) content_types with
  | Some v => {["Content-Type" := v]}
  | None => ∅
  end.
Proof.
  intros Hfind. destruct (FindStringSubmatch_hit _ _ _ _ Hfind) as [rest Hhit].
  serve_on_hit Hhit. cbn [assoc content_types].
  destruct (sync.Do _ _ _) as [once' h'].
  destruct (filepath.Ext path =? ".html");
    [|destruct (filepath.Ext path =? ".css");
      [|destruct (filepath.Ext path =? ".js");
        [|destruct (filepath.Ext path =? ".png");
          [|destruct (filepath.Ext path =? ".json")]]]];
    unfold app.Write; repeat case_match; simplify_eq; reflexivity.
Qed.

Lemma last_hit_first (s p name rest : string) :
  last_hit s = Some (p, name, rest) →
  first_literal resources (name ++ rest) = Some (name, rest).
Proof.
  revert p. induction s as [|c s IH]; intros p; cbn [last_hit].
  - destruct (first_literal resources "") as [[n r]|] eqn:E; [|discriminate].
    intros [= <- <- <-]. destruct (first_literal_Some _ _ _ _ E) as [Heq _].
    now rewrite <- Heq.
  - assert (match first_literal resources (String c s) with
            | Some (n, r) => Some ("", n, r)
            | None => None
            end = Some (p, name, rest) →
            first_literal resources (name ++ rest) = Some (name, rest))
      as Hhere.
    { destruct (first_literal resources (String c s)) as [[n r]|] eqn:E;
        [|discriminate].
      intros [= <- <- <-]. destruct (first_literal_Some _ _ _ _ E) as [Heq _].
      now rewrite <- Heq. }
    destruct (Ascii.eqb c newline); [exact Hhere|].
    destruct (last_hit s) as [[[p' n'] r']|]; [|exact Hhere].
    intros [= <- <- <-]. now apply (IH p').
Qed.

Lemma leftmost_hit_first (s p name rest : string) :
  leftmost_hit s = Some (p, name, rest) →
  first_literal resources (name ++ rest) = Some (name, rest).
Proof.
  induction s as [|c s IH]; cbn [leftmost_hit].
  - destruct (last_hit "") as [split|] eqn:E; [|discriminate].
    intros [= ->]. now apply last_hit_first in E.
  - destruct (last_hit (String c s)) as [split|] eqn:E; [|exact IH].
    intros [= ->]. now apply last_hit_first in E.
Qed.

(** Group 2 is never one of the [.map] literals: the literal without
    [.map] stands before it in the alternation and fits wherever it does. *)
Lemma group2_served (uri m0 m1 path : string) :
  FindStringSubmatch matcher uri = [m0; m1; path] → path ∈ served.
Proof.
  intros Hfind. destruct (FindStringSubmatch_hit _ _ _ _ Hfind) as [rest Hhit].
  pose proof (leftmost_hit_first _ _ _ _ Hhit) as Hfirst.
  destruct (first_literal_Some _ _ _ _ Hfirst) as [_ Hin].
  unfold resources in Hin. unfold served.
  repeat (apply elem_of_cons in Hin as [->|Hin]);
    try (apply elem_of_nil in Hin; contradiction);
    try (repeat (first [left; reflexivity | right]); fail);
    exfalso; revert Hfirst; rewrite !string_app_cons, string_app_nil_l;
    vm_compute; discriminate.
Qed.

(** C6, at a request for a [.map] file.  Group 2 of the match is
    [swagger-ui.css]: the response carries the style-sheet content type and
    the file opened is [swagger-ui.css], not the [.map] file. *)
Theorem map_request_served_as_css (f : Closure) (h : webdav.Handler)
    (swags : gmap string string) :
  let res :=
    serve f h swags (app.NewContext consts.MethodGet "/swagger-ui.css.map") in
  FindStringSubmatch matcher "/swagger-ui.css.map" =
    ["/swagger-ui.css."; "/"; "swagger-ui.css"] ∧
  filepath.Ext "swagger-ui.css.map" = ".map" ∧
  app.Header_ (response res) !! "Content-Type" =
    Some "text/css; charset=utf-8" ∧
  calls res = [CallOpenFile "swagger-ui.css"].
Proof.
  intros res.
  assert (FindStringSubmatch matcher "/swagger-ui.css.map" =
          ["/swagger-ui.css."; "/"; "swagger-ui.css"]) as Hfind
    by (vm_compute; reflexivity).
  split; [exact Hfind|]. split; [vm_compute; reflexivity|]. subst res. split.
  - rewrite (content_type_by_extension f h swags _ _ _ _ Hfind).
    vm_compute. reflexivity.
  - unfold serve.
    change (app.Method (app.NewContext consts.MethodGet _))
      with consts.MethodGet.
    change (negb (consts.MethodGet =? consts.MethodGet)) with false.
    cbv iota.
    change (app.URI (app.NewContext consts.MethodGet "/swagger-ui.css.map"))
      with "/swagger-ui.css.map".
    rewrite Hfind. cbn [List.length nth Nat.eqb negb].
    change ("swagger-ui.css" =? "index.html") with false.
    change ("swagger-ui.css" =? "doc.json") with false.
    cbv zeta. destruct (sync.Do _ _ _) as [once' h'].
    unfold app.Write.
    repeat case_match; simplify_eq; reflexivity.
Qed.


(** The cases of the switch on the extension. *)
Ltac ext_cases path :=
  destruct (filepath.Ext path =? ".html");
  [|destruct (filepath.Ext path =? ".css");
    [|destruct (filepath.Ext path =? ".js");
      [|destruct (filepath.Ext path =? ".png");
        [|destruct (filepath.Ext path =? ".json")]]]].

(** The response to a matched GET for a name other than [index.html] and
    [doc.json]. *)
Lemma serve_asset (f : Closure) (h : webdav.Handler)
    (swags : gmap string string) (uri m0 m1 path : string) :
  FindStringSubmatch matcher uri = [m0; m1; path] →
  path ≠ "index.html" → path ≠ "doc.json" →
  let res := serve f h swags (app.NewContext consts.MethodGet uri) in
  calls res = [CallOpenFile path] ∧
  match webdav.FileSystem_ h path with
  | None =>
      app.StatusCode (response res) = http.StatusInternalServerError ∧
      app.Body (response res) = "" ∧
      app.aborted (response res) = true
  | Some file =>
      match bytes.ReadFrom "" file with
      | (buf, None) =>
          app.StatusCode (response res) = http.StatusOK ∧
          app.Body (response res) = buf ∧
          app.aborted (response res) = false
      | (_, Some _) =>
          app.StatusCode (response res) = http.StatusInternalServerError ∧
          app.Body (response res) = "" ∧
          app.aborted (response res) = true
      end
  end.
Proof.
  intros Hfind Hindex Hdoc res. subst res.
  destruct (FindStringSubmatch_hit _ _ _ _ Hfind) as [rest Hhit].
  serve_on_hit Hhit.
  apply String.eqb_neq in Hindex, Hdoc. rewrite Hindex, Hdoc.
  unfold sync.Do. destruct (once f); cbn [webdav.set_Prefix
    webdav.FileSystem_];
    (destruct (webdav.FileSystem_ h path) as [file|];
     [destruct (bytes.ReadFrom "" file) as [buf [e|]]|]);
    ext_cases path; cbn; auto.
Qed.


(** C8, as the code has it.  When the read of an asset fails part-way,
    nothing of what was read reaches the response: the bytes stay in the
    buffer of the handler, and the response is 500, aborted, with an empty
    body. *)
Theorem read_failure_writes_nothing (f : Closure) (h : webdav.Handler)
    (swags : gmap string string) (uri m0 m1 path : string)
    (file : io.Reader) (buf : string) (e : io.error) :
  FindStringSubmatch matcher uri = [m0; m1; path] →
  path ≠ "index.html" → path ≠ "doc.json" →
  webdav.FileSystem_ h path = Some file →
  bytes.ReadFrom "" file = (buf, Some e) →
  let res := serve f h swags (app.NewContext consts.MethodGet uri) in
  app.Body (response res) = "" ∧
  app.StatusCode (response res) = http.StatusInternalServerError ∧
  app.aborted (response res) = true.
Proof.
  intros Hfind Hindex Hdoc Hopen Hread res.
  destruct (serve_asset f h swags uri m0 m1 path Hfind Hindex Hdoc)
    as [_ Hres].
  fold res in Hres. rewrite Hopen, Hread in Hres. tauto.
Qed.

(* ===================================================================== *)
(** * The configuration *)
(* ===================================================================== *)

(** Two options on one configuration: in either order when the fields
    differ, the later one alone when they are the same. *)
Lemma options_commute_helper (a b : OptionCall) (c : Config.t) :
  (field_of a ≠ field_of b →
   option_of b (option_of a c) = option_of a (option_of b c)) ∧
  (field_of a = field_of b →
   option_of b (option_of a c) = option_of b c).
Proof.
  split; destruct a, b; cbn; intros H; try reflexivity;
    try discriminate H; contradiction.
Qed.


(** The same over a whole list of options: when no two of them assign the
    same field, the loop of [WrapHandler] gives the same configuration in
    whatever order they come. *)
Lemma apply_options_permutation (os os' : list OptionCall) (c : Config.t) :
  os ≡ₚ os' →
  NoDup (field_of <$> os) →
  apply_options c (option_of <$> os) = apply_options c (option_of <$> os').
Proof.
  intros Hperm. revert c.
  induction Hperm as [|o os os' _ IH|o1 o2 os|os1 os2 os3 H12 IH12 H23 IH23];
    intros c Hnd.
  - reflexivity.
  - cbn [fmap list_fmap] in *. apply NoDup_cons in Hnd as [_ Hnd].
    apply (IH _ Hnd).
  - cbn [fmap list_fmap] in *. apply NoDup_cons in Hnd as [Hne _].
    assert (field_of o2 ≠ field_of o1) as Hfields.
    { intros E. apply Hne. rewrite E. left. }
    pose proof (proj1 (options_commute_helper o2 o1 c) Hfields) as Hswap.
    unfold apply_options in *. cbn [foldl] in *. now rewrite Hswap.
  - rewrite (IH12 c Hnd). apply IH23.
    assert (field_of <$> os1 ≡ₚ field_of <$> os2) as Hfields
      by now apply fmap_Permutation.
    now rewrite <- Hfields.
Qed.

(** A call of the handler asks the registry for the instance name of its
    configuration and for no other name. *)
Lemma serve_read_doc_names (f : Closure) (h : webdav.Handler)
    (swags : gmap string string) (ctx : app.RequestContext) (name : string) :
  name ∈ read_doc_names (calls (serve f h swags ctx)) →
  name = Config.InstanceName (config f).
Proof.
  unfold serve.
  destruct (negb (app.Method ctx =? consts.MethodGet));
    [cbn; intros H; inversion H|].
  destruct (negb (List.length _ =? 3)%nat); [cbn; intros H; inversion H|].
  cbv zeta. destruct (sync.Do _ _ _) as [once' h'].
  unfold app.Write. cbn [config].
  repeat case_match; cbn [calls read_doc_names]; intros Hin;
    try (inversion Hin; fail);
    apply list_elem_of_singleton in Hin; exact Hin.
Qed.

(** The handler never assigns to its configuration. *)
Lemma serve_config (f : Closure) (h : webdav.Handler) (r : Request) :
  config (closure (serve_request f h r)) = config f.
Proof.
  pose proof (serve_state f h r) as H.
  destruct (captured_prefix r); [|now injection H as -> _].
  destruct (sync.Do _ _ _). now injection H as -> _.
Qed.

Lemma serve_all_read_doc_names (f : Closure) (h : webdav.Handler)
    (reqs : list Request) (res : Result) (name : string) :
  res ∈ serve_all f h reqs →
  name ∈ read_doc_names (calls res) →
  name = Config.InstanceName (config f).
Proof.
  revert f h. induction reqs as [|r reqs IH]; intros f h; cbn [serve_all].
  { intros H. inversion H. }
  intros Hin Hname. apply elem_of_cons in Hin as [->|Hin].
  - now apply serve_read_doc_names in Hname.
  - rewrite <- (serve_config f h r). now apply (IH _ _ Hin).
Qed.

(** C10. [CustomWrapHandler] replaces an empty instance name by
    [swag.Name] and an empty title by [Swagger UI], and leaves a name or
    title that is given; whatever requests the handler then serves, every
    name it asks the registry for is not empty. *)
Theorem config_normalized (index : template.Template) (config0 : Config.t) :
  let f := CustomWrapHandler index config0 in
  Config.InstanceName (config f) =
    (if Config.InstanceName config0 =? "" then swag.Name
     else Config.InstanceName config0) ∧
  Config.Title (config f) =
    (if Config.Title config0 =? "" then "Swagger UI"
     else Config.Title config0) ∧
  (∀ (h : webdav.Handler) (reqs : list Request) (res : Result)
     (name : string),
     res ∈ serve_all f h reqs →
     name ∈ read_doc_names (calls res) →
     name ≠ "").
Proof.
  intros f.
  assert (Config.InstanceName (config f) =
          (if Config.InstanceName config0 =? "" then swag.Name
           else Config.InstanceName config0)) as Hname.
  { subst f. unfold CustomWrapHandler. cbn [config].
    destruct (Config.InstanceName config0 =? "");
      destruct (Config.Title _ =? ""); reflexivity. }
  split; [exact Hname|]. split.
  - subst f. unfold CustomWrapHandler. cbn [config].
    destruct (Config.InstanceName config0 =? "");
      cbn [Config.set_InstanceName Config.Title];
      destruct (Config.Title config0 =? "") eqn:E; cbn; congruence.
  - intros h reqs res name Hres Hin.
    rewrite (serve_all_read_doc_names f h reqs res name Hres Hin), Hname.
    destruct (Config.InstanceName config0 =? "") eqn:E; [discriminate|].
    now apply String.eqb_neq.
Qed.

(* ===================================================================== *)
(** * The statements at the requests of [swagger_test.go] *)
(* ===================================================================== *)

(** Leftmost-first: of two alternatives that fit, the first is taken even
    when the second is longer; a greedy star gives back what the rest of
    the pattern needs. *)
Example alternation_takes_the_first :
  FindStringSubmatch
    (OpCapture 1 (OpAlternate (OpLiteral "a") (OpLiteral "ab"))) "ab" =
  ["a"; "a"].
Proof. vm_compute. reflexivity. Qed.

Example star_gives_back :
  FindStringSubmatch
    (OpConcat (OpCapture 1 (OpStar OpAnyCharNotNL)) (OpLiteral "b")) "abcbd" =
  ["abcb"; "abc"].
Proof. vm_compute. reflexivity. Qed.

(** [matcher] on a text with two names and a tail of the class: the later
    name is group 2. *)
Example matcher_takes_the_last_name :
  FindStringSubmatch matcher "/index.html/doc.json??..x" =
  ["/index.html/doc.json??.."; "/index.html/"; "doc.json"].
Proof. vm_compute. reflexivity. Qed.

(** Group 2 for the four [.map] files: each time the name without
    [.map]. *)
Example map_requests_group2 :
  (λ uri, nth 2 (FindStringSubmatch matcher uri) "") <$>
    [ "/swagger-ui.css.map"; "/swagger-ui.js.map";
      "/swagger-ui-bundle.js.map"; "/swagger-ui-standalone-preset.js.map" ] =
  [ "swagger-ui.css"; "swagger-ui.js"; "swagger-ui-bundle.js";
    "swagger-ui-standalone-preset.js" ].
Proof. vm_compute. reflexivity. Qed.

(** The statuses of [TestCustomWrapHandler], with the document registered
    after the second request. *)
Example test_custom_wrap_handler :
  (λ res, app.StatusCode (response res)) <$>
    serve_all test_closure test_handler
      [ mkRequest ∅ "GET" "/index.html";
        mkRequest ∅ "GET" "/doc.json";
        mkRequest test_swags "GET" "/doc.json";
        mkRequest test_swags "GET" "/favicon-16x16.png";
        mkRequest test_swags "GET" "/swagger-ui.css";
        mkRequest test_swags "GET" "/swagger-ui-bundle.js";
        mkRequest test_swags "GET" "/notfound";
        mkRequest test_swags "POST" "/index.html";
        mkRequest test_swags "PUT" "/index.html" ] =
  [200; 500; 200; 200; 200; 200; 404; 405; 405].
Proof. vm_compute. reflexivity. Qed.

(** The content types [TestCustomWrapHandler] asserts. *)
Example test_custom_wrap_handler_content_types :
  (λ res, app.Header_ (response res) !! "Content-Type") <$>
    serve_all test_closure test_handler
      [ mkRequest ∅ "GET" "/index.html";
        mkRequest test_swags "GET" "/doc.json";
        mkRequest test_swags "GET" "/favicon-16x16.png";
        mkRequest test_swags "GET" "/swagger-ui.css";
        mkRequest test_swags "GET" "/swagger-ui-bundle.js" ] =
  [ Some "text/html; charset=utf-8";
    Some "application/json; charset=utf-8";
    Some "image/png";
    Some "text/css; charset=utf-8";
    Some "application/javascript" ].
Proof. vm_compute. reflexivity. Qed.

(** Two handlers on [swaggerFiles.Handler], as the two tests make them:
    the second one mounted elsewhere writes the prefix again. *)
Example shared_handler_two_mounts :
  let first :=
    serve_request test_closure test_handler
      (mkRequest ∅ "GET" "/docs/index.html") in
  let second :=
    serve_request (WrapHandler test_index [URL "swagger.json"])
      (res_handler first) (mkRequest ∅ "GET" "/api/index.html") in
  webdav.Prefix (res_handler first) = "/docs/" ∧
  webdav.Prefix (res_handler second) = "/api/".
Proof. vm_compute. split; reflexivity. Qed.



Lemma not_recognized_empty : ¬ recognized "".
Proof.
  intros H. apply has_resource_recognized in H. vm_compute in H.
  discriminate H.
Defined.



(** [POST /index.html]: 405 and nothing read. *)
Lemma method_not_allowed_witness :
  let res :=
    serve test_closure test_handler test_swags
      (app.NewContext "POST" "/index.html") in
  app.StatusCode (response res) = 405 ∧ calls res = [].
Proof.
  intros res.
  assert ("POST" ≠ consts.MethodGet) as Hm by discriminate.
  pose proof (method_not_allowed test_closure test_handler test_swags
                "POST" "/index.html" Hm) as H.
  cbv zeta in H. destruct H as (Hstatus & _ & _ & _ & Hcalls & _).
  split; [exact Hstatus | exact Hcalls].
Defined.

(** Two matched requests under different prefixes: the prefix of the first
    stays. *)
Lemma route_prefix_written_once_witness :
  webdav.Prefix
    (snd (after_all test_closure test_handler
            [ mkRequest ∅ "POST" "/a/index.html";
              mkRequest ∅ "GET" "/notfound";
              mkRequest ∅ "GET" "/first/index.html";
              mkRequest ∅ "GET" "/second/doc.json" ])) = "/first/".
Proof.
  pose proof (proj2 (route_prefix_written_once test_closure test_handler
                       [ mkRequest ∅ "POST" "/a/index.html";
                         mkRequest ∅ "GET" "/notfound";
                         mkRequest ∅ "GET" "/first/index.html";
                         mkRequest ∅ "GET" "/second/doc.json" ]) eq_refl) as H.
  change (first_captured _) with (Some "/first/") in H.
  destruct H as [_ ->]. reflexivity.
Defined.



(** C8, as stated, at [GET /swagger-ui.js]: the read delivers [var a] and
    then fails; the response is not a body of what was read but 500 with
    an empty body. *)
Lemma partial_body_counterexample :
  let res :=
    serve test_closure test_handler test_swags
      (app.NewContext consts.MethodGet "/swagger-ui.js") in
  webdav.FileSystem_ test_handler "swagger-ui.js" =
    Some [("var a", None); ("", Some io.ErrOther)] ∧
  bytes.ReadFrom "" [("var a", None); ("", Some io.ErrOther)] =
    ("var a", Some io.ErrOther) ∧
  app.Body (response res) ≠ "var a" ∧
  app.Body (response res) = "" ∧
  app.StatusCode (response res) = 500.
Proof. vm_compute. repeat split. discriminate. Qed.

(** The same request through the statement of what the code does. *)
Lemma read_failure_writes_nothing_witness :
  let res :=
    serve test_closure test_handler test_swags
      (app.NewContext consts.MethodGet "/swagger-ui.js") in
  app.Body (response res) = "" ∧
  app.StatusCode (response res) = http.StatusInternalServerError ∧
  app.aborted (response res) = true.
Proof.
  assert (FindStringSubmatch matcher "/swagger-ui.js" =
          ["/swagger-ui.js"; "/"; "swagger-ui.js"]) as Hfind
    by (vm_compute; reflexivity).
  assert ("swagger-ui.js" ≠ "index.html") as H1 by discriminate.
  assert ("swagger-ui.js" ≠ "doc.json") as H2 by discriminate.
  exact (read_failure_writes_nothing test_closure test_handler test_swags
           _ _ _ _ [("var a", None); ("", Some io.ErrOther)] "var a"
           io.ErrOther Hfind H1 H2 eq_refl eq_refl).
Defined.


(** The handler of the test, made from the zero [Config]: its name and
    title, and the name it asks the registry for. *)
Lemma config_normalized_witness :
  Config.InstanceName (config test_closure) = "swagger" ∧
  Config.Title (config test_closure) = "Swagger UI" ∧
  "swagger" ≠ "".
Proof.
  pose proof (config_normalized test_index
                (Config.mk "" "" "" "" 0 false false "" false)) as H.
  cbv zeta in H. destruct H as (Hname & Htitle & Hserved).
  split; [exact Hname | split; [exact Htitle|]].
  apply (Hserved test_handler [mkRequest ∅ "GET" "/doc.json"]
           (serve_request test_closure test_handler
              (mkRequest ∅ "GET" "/doc.json")) "swagger").
  - vm_compute. left.
  - vm_compute. left.
Defined.

(* ===================================================================== *)
(** * The configuration after a list of options *)
(* ===================================================================== *)

(** One option on one field: its argument when it assigns the field, the
    field as it was when it does not; the title is never assigned. *)
Lemma option_of_field (o : OptionCall) (F : Field) (c : Config.t) :
  field_value F (option_of o c) =
  (if decide (field_of o = F) then arg_of o else field_value F c) ∧
  Config.Title (option_of o c) = Config.Title c.
Proof. split; [destruct o, F; reflexivity | destruct o; reflexivity]. Qed.

(** X1. After the loop over any list of options each field holds the
    argument of the last option that assigns it, and what it held before
    when none does; the title is what it was. *)
Theorem apply_options_last_assigned (os : list OptionCall) (c : Config.t)
    (F : Field) :
  field_value F (apply_options c (option_of <$> os)) =
    last_assigned F os (field_value F c) ∧
  Config.Title (apply_options c (option_of <$> os)) = Config.Title c.
Proof.
  revert c. induction os as [|o os IH]; intros c; [split; reflexivity|].
  cbn [fmap list_fmap last_assigned]. unfold apply_options. cbn [foldl].
  destruct (IH (option_of o c)) as [IHF IHT]. unfold apply_options in IHF, IHT.
  destruct (option_of_field o F c) as [HF HT].
  split; [now rewrite IHF, HF | now rewrite IHT, HT].
Qed.

(** A name or title that is not empty is kept by [CustomWrapHandler]. *)
Lemma CustomWrapHandler_config (index : template.Template) (c : Config.t) :
  config (CustomWrapHandler index c) =
  Config.set_Title
    (if Config.Title c =? "" then "Swagger UI" else Config.Title c)
    (Config.set_InstanceName
       (if Config.InstanceName c =? "" then swag.Name
        else Config.InstanceName c) c).
Proof.
  unfold CustomWrapHandler. cbn [config]. destruct c as [u d n t m l p o y].
  cbn [Config.InstanceName Config.Title Config.set_InstanceName].
  destruct (n =? ""); unfold Config.set_InstanceName;
    cbn [Config.Title Config.InstanceName]; destruct (t =? ""); reflexivity.
Qed.

(** X2. [CustomWrapHandler] touches the instance name and the title only:
    every other field of the configuration is as the caller gave it; the
    closure starts with [once] not fired; and normalising what it has
    normalised changes nothing. *)
Theorem CustomWrapHandler_frame (index : template.Template) (c : Config.t) :
  let f := CustomWrapHandler index c in
  (∀ F, F ≠ FInstanceName → field_value F (config f) = field_value F c) ∧
  once f = false ∧
  config (CustomWrapHandler index (config f)) = config f.
Proof.
  intros f. subst f. split; [|split; [reflexivity|]].
  - intros F HF. rewrite CustomWrapHandler_config.
    destruct F; try reflexivity. contradiction.
  - rewrite !CustomWrapHandler_config. destruct c as [u d n t m l p o y].
    cbn [Config.InstanceName Config.Title Config.set_InstanceName
         Config.set_Title].
    destruct (String.eqb_spec n ""), (String.eqb_spec t ""); subst;
      cbn; rewrite ?String.eqb_refl; try reflexivity;
      repeat match goal with
      | H : ?x ≠ "" |- _ => apply String.eqb_neq in H; rewrite H
      end; reflexivity.
Qed.


(* ===================================================================== *)
(** * The three ways a request ends *)
(* ===================================================================== *)

(** Turned away for its method. *)
Lemma serve_not_get (f : Closure) (h : webdav.Handler)
    (swags : gmap string string) (method uri : string) :
  method ≠ consts.MethodGet →
  serve f h swags (app.NewContext method uri) =
  mkResult f h
    (app.AbortWithStatus http.StatusMethodNotAllowed
       (app.NewContext method uri)) [].
Proof.
  intros Hm. unfold serve.
  change (app.Method (app.NewContext method uri)) with method.
  apply String.eqb_neq in Hm. now rewrite Hm.
Qed.

(** Turned away for its text. *)
Lemma serve_unmatched (f : Closure) (h : webdav.Handler)
    (swags : gmap string string) (uri : string) :
  has_resource uri = false →
  serve f h swags (app.NewContext consts.MethodGet uri) =
  mkResult f h
    (app.String_ http.StatusNotFound "Not Found"
       (app.NewContext consts.MethodGet uri)) [].
Proof.
  intros Hno. unfold serve.
  change (app.Method (app.NewContext consts.MethodGet uri))
    with consts.MethodGet.
  change (negb (consts.MethodGet =? consts.MethodGet)) with false.
  cbv iota.
  change (app.URI (app.NewContext consts.MethodGet uri)) with uri.
  now rewrite FindStringSubmatch_length, Hno.
Qed.

(** A text that has the shape has a match. *)
Lemma has_resource_match (uri : string) :
  has_resource uri = true →
  ∃ m0 m1 path, FindStringSubmatch matcher uri = [m0; m1; path].
Proof.
  intros H. rewrite FindStringSubmatch_matcher.
  destruct (has_resource_true_leftmost_hit uri H) as [[[p n] r] ->].
  cbn [submatches]. eauto.
Qed.

(** Dispatched: 200 and not aborted, or 500, aborted and without body;
    one read either way. *)
Lemma serve_matched_outcome (f : Closure) (h : webdav.Handler)
    (swags : gmap string string) (uri m0 m1 path : string) :
  FindStringSubmatch matcher uri = [m0; m1; path] →
  let res := serve f h swags (app.NewContext consts.MethodGet uri) in
  (app.StatusCode (response res) = 200 ∧ app.aborted (response res) = false ∨
   app.StatusCode (response res) = 500 ∧ app.aborted (response res) = true ∧
   app.Body (response res) = "") ∧
  List.length (calls res) = 1.
Proof.
  intros Hfind res. subst res.
  destruct (FindStringSubmatch_hit _ _ _ _ Hfind) as [rest Hhit].
  serve_on_hit Hhit. destruct (sync.Do _ _ _) as [once' h'].
  unfold app.Write.
  ext_cases path; repeat case_match; simplify_eq; cbn;
    (split; [|reflexivity]);
    first [left; split; reflexivity | right; repeat split; reflexivity].
Qed.

(** X4. Every response is of one of four kinds: 200 and not aborted; 404,
    not aborted, with the body [Not Found]; 405 or 500, aborted and without
    body.  It is 405 exactly when the method is not GET, and 404 exactly
    when the method is GET and the text does not have the shape. *)
Theorem status_classes (f : Closure) (h : webdav.Handler)
    (swags : gmap string string) (method uri : string) :
  let ctx := response (serve f h swags (app.NewContext method uri)) in
  (app.StatusCode ctx = 200 ∧ app.aborted ctx = false ∨
   app.StatusCode ctx = 404 ∧ app.aborted ctx = false ∧
     app.Body ctx = "Not Found" ∨
   app.StatusCode ctx = 405 ∧ app.aborted ctx = true ∧ app.Body ctx = "" ∨
   app.StatusCode ctx = 500 ∧ app.aborted ctx = true ∧ app.Body ctx = "") ∧
  (app.StatusCode ctx = 405 ↔ method ≠ consts.MethodGet) ∧
  (app.StatusCode ctx = 404 ↔
   method = consts.MethodGet ∧ ¬ recognized uri).
Proof.
  intros ctx. subst ctx.
  destruct (String.eqb_spec method consts.MethodGet) as [->|Hm].
  - destruct (has_resource uri) eqn:Hshape.
    + destruct (has_resource_match uri Hshape) as (m0 & m1 & path & Hfind).
      destruct (serve_matched_outcome f h swags uri m0 m1 path Hfind)
        as [Hst _]. cbv zeta in Hst.
      apply has_resource_recognized in Hshape.
      split; [tauto|]. split; split; intros H;
        try (destruct Hst as [[E _]|[E _]]; rewrite E in H; discriminate H);
        tauto.
    + rewrite (serve_unmatched f h swags uri Hshape). cbn.
      assert (¬ recognized uri) as Hno.
      { intros H. apply has_resource_recognized in H. congruence. }
      split; [right; left; repeat split|].
      split; split; try discriminate; tauto.
  - rewrite (serve_not_get f h swags method uri Hm). cbn.
    split; [right; right; left; repeat split|].
    split; split; try discriminate; tauto.
Qed.

(** Membership in a list of literals, by trying them in turn. *)
Ltac in_literals := solve [repeat (first [left | right])].

(** X5. A response carries a [Content-Type] header exactly when the method
    is GET, and then it is its only header: the plain text of the 404, or
    for a dispatched request one of the five types of the table.  No
    dispatched request goes without one. *)
Theorem content_type_on_get (f : Closure) (h : webdav.Handler)
    (swags : gmap string string) (method uri : string) :
  let ctx := response (serve f h swags (app.NewContext method uri)) in
  method ≠ consts.MethodGet ∧ app.Header_ ctx = ∅ ∨
  method = consts.MethodGet ∧
  ∃ v, app.Header_ ctx = {["Content-Type" := v]} ∧ v ∈ sent_content_types ∧
       (recognized uri ↔ v ≠ "text/plain; charset=utf-8").
Proof.
  intros ctx. subst ctx.
  destruct (String.eqb_spec method consts.MethodGet) as [->|Hm].
  2:{ left. split; [exact Hm|]. now rewrite (serve_not_get f h swags _ _ Hm). }
  right. split; [reflexivity|].
  destruct (has_resource uri) eqn:Hshape.
  - destruct (has_resource_match uri Hshape) as (m0 & m1 & path & Hfind).
    rewrite (content_type_by_extension f h swags uri m0 m1 path Hfind).
    apply has_resource_recognized in Hshape.
    pose proof (group2_served uri m0 m1 path Hfind) as Hin. unfold served in Hin.
    repeat (apply elem_of_cons in Hin as [->|Hin]);
      try (apply elem_of_nil in Hin; contradiction);
      match goal with
      | |- context [assoc (filepath.Ext ?p) content_types] =>
          let e := eval vm_compute in (assoc (filepath.Ext p) content_types) in
          change (assoc (filepath.Ext p) content_types) with e
      end;
      cbv iota beta; eexists; (split; [reflexivity|]);
      (split; [unfold sent_content_types, content_types;
               cbn [fmap list_fmap snd]; in_literals|]);
      (split; [discriminate | intros _; exact Hshape]).
  - rewrite (serve_unmatched f h swags uri Hshape). cbn.
    exists "text/plain; charset=utf-8". split; [reflexivity|].
    split; [left|]. split; [|done].
    intros H. apply has_resource_recognized in H. congruence.
Qed.

(** X6. A request makes at most one read of a collaborator, and none
    exactly when it is turned away, for its method or for its text. *)
Theorem one_read_per_request (f : Closure) (h : webdav.Handler)
    (swags : gmap string string) (method uri : string) :
  let res := serve f h swags (app.NewContext method uri) in
  (List.length (calls res) ≤ 1)%nat ∧
  (calls res = [] ↔ method ≠ consts.MethodGet ∨ ¬ recognized uri).
Proof.
  intros res. subst res.
  destruct (String.eqb_spec method consts.MethodGet) as [->|Hm].
  2:{ rewrite (serve_not_get f h swags _ _ Hm). cbn. split; [lia|tauto]. }
  destruct (has_resource uri) eqn:Hshape.
  - destruct (has_resource_match uri Hshape) as (m0 & m1 & path & Hfind).
    destruct (serve_matched_outcome f h swags uri m0 m1 path Hfind)
      as [_ Hlen]. cbv zeta in Hlen.
    apply has_resource_recognized in Hshape. split; [lia|].
    split; [intros E; rewrite E in Hlen; discriminate Hlen | tauto].
  - rewrite (serve_unmatched f h swags uri Hshape). cbn. split; [lia|].
    split; [|done]. intros _. right. intros H.
    apply has_resource_recognized in H. congruence.
Qed.

(** The read a dispatched request makes, by group 2. *)
Lemma serve_matched_call (f : Closure) (h : webdav.Handler)
    (swags : gmap string string) (uri m0 m1 path : string) :
  FindStringSubmatch matcher uri = [m0; m1; path] →
  calls (serve f h swags (app.NewContext consts.MethodGet uri)) =
  [ if path =? "index.html" then CallExecute (toSwaggerConfig (config f))
    else if path =? "doc.json" then CallReadDoc (Config.InstanceName (config f))
    else CallOpenFile path ].
Proof.
  intros Hfind. destruct (FindStringSubmatch_hit _ _ _ _ Hfind) as [rest Hhit].
  serve_on_hit Hhit. destruct (sync.Do _ _ _) as [once' h'].
  unfold app.Write. repeat case_match; reflexivity.
Qed.

(** X7. Whatever the request, the only names the handler gives to
    [OpenFile] are the seven asset literals of [matcher]: no part of the
    request text other than a literal reaches the file system. *)
Theorem opens_assets_only (f : Closure) (h : webdav.Handler)
    (swags : gmap string string) (method uri name : string) :
  name ∈ opened_files (calls (serve f h swags (app.NewContext method uri))) →
  name ∈ assets.
Proof.
  destruct (String.eqb_spec method consts.MethodGet) as [->|Hm].
  2:{ rewrite (serve_not_get f h swags _ _ Hm). cbn. intros H. inversion H. }
  destruct (has_resource uri) eqn:Hshape.
  2:{ rewrite (serve_unmatched f h swags uri Hshape). cbn.
      intros H. inversion H. }
  destruct (has_resource_match uri Hshape) as (m0 & m1 & path & Hfind).
  rewrite (serve_matched_call f h swags uri m0 m1 path Hfind).
  pose proof (group2_served uri m0 m1 path Hfind) as Hin.
  destruct (path =? "index.html") eqn:Eindex;
    [cbn; intros H; inversion H|].
  destruct (path =? "doc.json") eqn:Edoc; [cbn; intros H; inversion H|].
  cbn [opened_files]. intros H. apply list_elem_of_singleton in H. subst name.
  unfold served in Hin.
  repeat (apply elem_of_cons in Hin as [->|Hin]);
    try (apply elem_of_nil in Hin; contradiction);
    try discriminate Eindex; try discriminate Edoc; unfold assets;
    in_literals.
Qed.

(* ===================================================================== *)
(** * What a response depends on *)
(* ===================================================================== *)

(** [once] and [Prefix] are written and never read: two closures with one
    configuration and template, on two [webdav.Handler]s with one file
    system, answer alike. *)
Lemma serve_blind (f f' : Closure) (h h' : webdav.Handler)
    (swags : gmap string string) (ctx : app.RequestContext) :
  config f = config f' → index f = index f' →
  webdav.FileSystem_ h = webdav.FileSystem_ h' →
  response (serve f h swags ctx) = response (serve f' h' swags ctx) ∧
  calls (serve f h swags ctx) = calls (serve f' h' swags ctx).
Proof.
  destruct f as [c o i], f' as [c' o' i'], h as [p fs], h' as [p' fs'].
  cbn [config index webdav.FileSystem_]. intros <- <- <-.
  unfold serve, sync.Do. cbn [config once index].
  destruct (negb (app.Method ctx =? consts.MethodGet)); [split; reflexivity|].
  destruct (negb (List.length _ =? 3)%nat); [split; reflexivity|].
  cbv zeta. destruct o, o'; cbn [webdav.set_Prefix webdav.FileSystem_];
    unfold app.Write; repeat case_match; simplify_eq; split; reflexivity.
Qed.

(** A run leaves the configuration, the template and the file system as
    they were. *)
Lemma after_all_frame (f : Closure) (h : webdav.Handler)
    (reqs : list Request) :
  config (fst (after_all f h reqs)) = config f ∧
  index (fst (after_all f h reqs)) = index f ∧
  webdav.FileSystem_ (snd (after_all f h reqs)) = webdav.FileSystem_ h.
Proof.
  revert f h. induction reqs as [|r reqs IH]; intros f h; cbn [after_all].
  { repeat split. }
  destruct (IH (closure (serve_request f h r))
               (res_handler (serve_request f h r))) as (-> & -> & ->).
  pose proof (serve_state f h r) as Hst.
  destruct (serve_request f h r) as [f1 h1 ctx1 cs1].
  cbn [closure res_handler] in *.
  destruct (captured_prefix r); [|injection Hst as -> ->; repeat split].
  unfold sync.Do in Hst. destruct (once f); injection Hst as -> ->;
    repeat split.
Qed.

(** X8. What the handler has served before does not show: after any run
    of requests, a request gets the response, and makes the read, it would
    have got from the handler as it was made.  The recorded prefix and
    [once] enter no response. *)
Theorem response_ignores_history (f : Closure) (h : webdav.Handler)
    (reqs : list Request) (r : Request) :
  let f' := fst (after_all f h reqs) in
  let h' := snd (after_all f h reqs) in
  response (serve_request f' h' r) = response (serve_request f h r) ∧
  calls (serve_request f' h' r) = calls (serve_request f h r).
Proof.
  intros f' h'. destruct (after_all_frame f h reqs) as (Hc & Hi & Hfs).
  exact (serve_blind f' f h' h _ _ Hc Hi Hfs).
Qed.

Lemma served_assets (path : string) :
  path ∈ served → path ≠ "index.html" → path ≠ "doc.json" → path ∈ assets.
Proof.
  unfold served, assets. intros Hin Hindex Hdoc.
  repeat (apply elem_of_cons in Hin as [->|Hin]);
    try (apply elem_of_nil in Hin; contradiction);
    try contradiction; in_literals.
Qed.

(** X9. The handler reads the registry at the instance name only and the
    file system at the seven asset names only: two registries that agree
    on that name and two file systems that agree on those names give every
    request the same response and the same read. *)
Theorem reads_only_what_it_serves (f : Closure) (h h' : webdav.Handler)
    (swags swags' : gmap string string) (method uri : string) :
  swags !! Config.InstanceName (config f) =
    swags' !! Config.InstanceName (config f) →
  (∀ name, name ∈ assets →
           webdav.FileSystem_ h name = webdav.FileSystem_ h' name) →
  let ctx := app.NewContext method uri in
  response (serve f h swags ctx) = response (serve f h' swags' ctx) ∧
  calls (serve f h swags ctx) = calls (serve f h' swags' ctx).
Proof.
  intros Hreg Hfs ctx. subst ctx.
  destruct (String.eqb_spec method consts.MethodGet) as [->|Hm].
  2:{ now rewrite !(serve_not_get _ _ _ _ _ Hm). }
  destruct (has_resource uri) eqn:Hshape.
  2:{ now rewrite !(serve_unmatched _ _ _ _ Hshape). }
  destruct (has_resource_match uri Hshape) as (m0 & m1 & path & Hfind).
  pose proof (group2_served uri m0 m1 path Hfind) as Hin.
  unfold serve.
  change (app.Method (app.NewContext consts.MethodGet uri))
    with consts.MethodGet.
  change (negb (consts.MethodGet =? consts.MethodGet)) with false.
  cbv iota.
  change (app.URI (app.NewContext consts.MethodGet uri)) with uri.
  rewrite Hfind. cbn [List.length nth Nat.eqb negb config once index].
  unfold sync.Do, swag.ReadDoc. rewrite Hreg.
  destruct (String.eqb_spec path "index.html") as [->|Hindex].
  { destruct (once f); split; reflexivity. }
  destruct (String.eqb_spec path "doc.json") as [->|Hdoc].
  { unfold app.Write.
    destruct (once f); repeat case_match; simplify_eq; split; reflexivity. }
  pose proof (Hfs path (served_assets path Hin Hindex Hdoc)) as E.
  unfold app.Write.
  destruct (once f); cbn [webdav.set_Prefix webdav.FileSystem_];
    rewrite E; repeat case_match; simplify_eq; split; reflexivity.
Qed.

(** Two dispatched requests with one group 2 are answered alike. *)
Lemma serve_by_group2 (f : Closure) (h : webdav.Handler)
    (swags : gmap string string) (uri uri' m0 m1 m0' m1' path : string) :
  FindStringSubmatch matcher uri = [m0; m1; path] →
  FindStringSubmatch matcher uri' = [m0'; m1'; path] →
  reply (response (serve f h swags (app.NewContext consts.MethodGet uri))) =
  reply (response (serve f h swags (app.NewContext consts.MethodGet uri'))) ∧
  calls (serve f h swags (app.NewContext consts.MethodGet uri)) =
  calls (serve f h swags (app.NewContext consts.MethodGet uri')).
Proof.
  intros Hfind Hfind'. unfold serve.
  change (app.Method (app.NewContext consts.MethodGet uri))
    with consts.MethodGet.
  change (app.Method (app.NewContext consts.MethodGet uri'))
    with consts.MethodGet.
  change (negb (consts.MethodGet =? consts.MethodGet)) with false.
  cbv iota.
  change (app.URI (app.NewContext consts.MethodGet uri)) with uri.
  change (app.URI (app.NewContext consts.MethodGet uri')) with uri'.
  rewrite Hfind, Hfind'.
  cbn [List.length nth Nat.eqb negb config once index].
  unfold sync.Do, app.Write, reply.
  destruct (once f); cbn [webdav.set_Prefix webdav.FileSystem_];
    ext_cases path; repeat case_match; simplify_eq; split; reflexivity.
Qed.

(** X10. The response does not depend on where the handler is mounted: two
    GETs whose matches have the same group 2 get the same status, headers
    and body and make the same read, whatever stands before the name and
    after it. *)
Theorem response_by_group2 (f : Closure) (h : webdav.Handler)
    (swags : gmap string string) (uri uri' m0 m1 m0' m1' path : string) :
  FindStringSubmatch matcher uri = [m0; m1; path] →
  FindStringSubmatch matcher uri' = [m0'; m1'; path] →
  reply (response (serve f h swags (app.NewContext consts.MethodGet uri))) =
  reply (response (serve f h swags (app.NewContext consts.MethodGet uri'))) ∧
  calls (serve f h swags (app.NewContext consts.MethodGet uri)) =
  calls (serve f h swags (app.NewContext consts.MethodGet uri')).
Proof. exact (serve_by_group2 f h swags uri uri' m0 m1 m0' m1' path). Qed.

(* ===================================================================== *)
(** * From the request text to the name served *)
(* ===================================================================== *)

(** The slices for a split found at the head of what follows [pre]. *)
Lemma FindStringSubmatch_after (pre t name rest : string) :
  no_newline pre = true →
  last_hit t = Some ("", name, rest) →
  FindStringSubmatch matcher (pre ++ t) =
  [pre ++ name ++ class_run ["?"; "|"; "."]%char rest; pre; name].
Proof.
  intros Hpre Ht. rewrite FindStringSubmatch_matcher.
  rewrite (leftmost_hit_last_hit _ _ (last_hit_app pre t "" name rest Hpre Ht)).
  cbn [submatches]. now rewrite string_app_nil_r.
Qed.

(** X11. A text that ends in one of the nine names the handler serves,
    after any newline-free text, is matched with that name as group 2 and
    all that stands before it as group 1. *)
Theorem text_ending_in_name (pre name : string) :
  no_newline pre = true →
  name ∈ served →
  FindStringSubmatch matcher (pre ++ name) = [pre ++ name; pre; name].
Proof.
  intros Hpre Hin.
  assert (last_hit name = Some ("", name, "")) as Hhit.
  { unfold served in Hin.
    repeat (apply elem_of_cons in Hin as [->|Hin]);
      try (apply elem_of_nil in Hin; contradiction);
      vm_compute; reflexivity. }
  rewrite (FindStringSubmatch_after pre name name "" Hpre Hhit).
  cbn [class_run]. now rewrite string_app_nil_r.
Qed.

(** X12. A query string that names no resource does not change the
    dispatch: after a served name, a question mark and such a query, group
    2 is still the name and group 1 what stands before it. *)
Theorem query_keeps_dispatch (pre name query : string) :
  no_newline pre = true →
  name ∈ served →
  ¬ recognized query →
  FindStringSubmatch matcher (pre ++ name ++ "?" ++ query) =
  [pre ++ name ++ "?" ++ class_run ["?"; "|"; "."]%char query; pre; name].
Proof.
  intros Hpre Hin Hq.
  apply not_recognized_has_resource, has_resource_false_last_hit in Hq.
  assert (last_hit (name ++ "?" ++ query) = Some ("", name, "?" ++ query))
    as Hhit.
  { unfold served in Hin.
    repeat (apply elem_of_cons in Hin as [->|Hin]);
      try (apply elem_of_nil in Hin; contradiction);
      rewrite !string_app_cons, !string_app_nil_l; cbn [last_hit];
      rewrite Hq; vm_compute; reflexivity. }
  rewrite (FindStringSubmatch_after pre _ name _ Hpre Hhit).
  reflexivity.
Qed.

(** A request for the [.map] file of a name is matched as the name. *)
Lemma FindStringSubmatch_map (pre name : string) :
  no_newline pre = true →
  name ∈ mapped →
  FindStringSubmatch matcher (pre ++ name ++ ".map") =
  [pre ++ name ++ "."; pre; name].
Proof.
  intros Hpre Hin.
  assert (last_hit (name ++ ".map") = Some ("", name, ".map")) as Hhit.
  { unfold mapped in Hin.
    repeat (apply elem_of_cons in Hin as [->|Hin]);
      try (apply elem_of_nil in Hin; contradiction);
      vm_compute; reflexivity. }
  now rewrite (FindStringSubmatch_after pre _ name _ Hpre Hhit).
Qed.

Lemma mapped_served (name : string) : name ∈ mapped → name ∈ served.
Proof.
  unfold mapped, served. intros Hin.
  repeat (apply elem_of_cons in Hin as [->|Hin]);
    try (apply elem_of_nil in Hin; contradiction); in_literals.
Qed.

(** X13. Under any prefix, the request for the [.map] file of a style
    sheet or script is answered as the request for the style sheet or
    script itself: same status, headers and body, and the file opened is
    the one without [.map]. *)
Theorem map_request_is_alias (f : Closure) (h : webdav.Handler)
    (swags : gmap string string) (pre name : string) :
  no_newline pre = true →
  name ∈ mapped →
  let res :=
    serve f h swags (app.NewContext consts.MethodGet (pre ++ name ++ ".map")) in
  let res' :=
    serve f h swags (app.NewContext consts.MethodGet (pre ++ name)) in
  reply (response res) = reply (response res') ∧
  calls res = [CallOpenFile name] ∧
  calls res' = [CallOpenFile name].
Proof.
  intros Hpre Hin res res'. subst res res'.
  pose proof (FindStringSubmatch_map pre name Hpre Hin) as Hmap.
  assert (FindStringSubmatch matcher (pre ++ name) = [pre ++ name; pre; name])
    as Hname.
  { assert (last_hit name = Some ("", name, "")) as Hhit.
    { unfold mapped in Hin.
      repeat (apply elem_of_cons in Hin as [->|Hin]);
        try (apply elem_of_nil in Hin; contradiction);
        vm_compute; reflexivity. }
    rewrite (FindStringSubmatch_after pre name name "" Hpre Hhit).
    cbn [class_run]. now rewrite string_app_nil_r. }
  destruct (serve_by_group2 f h swags _ _ _ _ _ _ _ Hmap Hname) as [Hr Hc].
  split; [exact Hr|]. rewrite Hc.
  rewrite (serve_matched_call f h swags _ _ _ _ Hname).
  assert ((name =? "index.html") = false ∧ (name =? "doc.json") = false)
    as [-> ->]; [|split; reflexivity].
  unfold mapped in Hin.
  repeat (apply elem_of_cons in Hin as [->|Hin]);
    try (apply elem_of_nil in Hin; contradiction); split; reflexivity.
Qed.

Lemma last_hit_index_html (rest : string) :
  ¬ recognized rest →
  last_hit ("index.html" ++ rest) = Some ("", "index.html", rest).
Proof.
  intros H. apply not_recognized_has_resource, has_resource_false_last_hit in H.
  rewrite !string_app_cons, string_app_nil_l. cbn [last_hit].
  rewrite H. vm_compute. reflexivity.
Qed.

(** X14. A GET whose text has [index.html] after a newline-free [pre],
    followed at most by a [rest] that names no resource, executes the
    index template once, on the configuration of the handler; the response
    is 200 with the HTML content type and what the template wrote as body.
    Neither the registry nor the file system is read. *)
Theorem index_html_served (f : Closure) (h : webdav.Handler)
    (swags : gmap string string) (pre rest : string) :
  no_newline pre = true →
  ¬ recognized rest →
  let data := toSwaggerConfig (config f) in
  let res :=
    serve f h swags
      (app.NewContext consts.MethodGet (pre ++ "index.html" ++ rest)) in
  calls res = [CallExecute data] ∧
  app.StatusCode (response res) = http.StatusOK ∧
  app.Body (response res) = index f data ∧
  app.Header_ (response res) = {["Content-Type" := "text/html; charset=utf-8"]} ∧
  app.aborted (response res) = false.
Proof.
  intros Hpre Hrest data res. subst res data.
  pose proof (FindStringSubmatch_after pre _ _ _ Hpre
                (last_hit_index_html rest Hrest)) as Hfind.
  split; [now rewrite (serve_matched_call f h swags _ _ _ _ Hfind)|].
  destruct (FindStringSubmatch_hit _ _ _ _ Hfind) as [rest' Hhit].
  serve_on_hit Hhit. destruct (once f); vm_compute; repeat split.
Qed.

(** The data a call executes the template on is the configuration of the
    closure. *)
Lemma serve_executed_data (f : Closure) (h : webdav.Handler)
    (swags : gmap string string) (ctx : app.RequestContext)
    (data : swaggerConfig.t) :
  data ∈ executed_data (calls (serve f h swags ctx)) →
  data = toSwaggerConfig (config f).
Proof.
  unfold serve.
  destruct (negb (app.Method ctx =? consts.MethodGet));
    [cbn; intros H; inversion H|].
  destruct (negb (List.length _ =? 3)%nat); [cbn; intros H; inversion H|].
  cbv zeta. destruct (sync.Do _ _ _) as [once' h'].
  unfold app.Write. cbn [config].
  repeat case_match; cbn [calls executed_data]; intros Hin;
    try (inversion Hin; fail);
    apply list_elem_of_singleton in Hin; exact Hin.
Qed.

Lemma serve_all_executed_data (f : Closure) (h : webdav.Handler)
    (reqs : list Request) (res : Result) (data : swaggerConfig.t) :
  res ∈ serve_all f h reqs →
  data ∈ executed_data (calls res) →
  data = toSwaggerConfig (config f).
Proof.
  revert f h. induction reqs as [|r reqs IH]; intros f h; cbn [serve_all].
  { intros H. inversion H. }
  intros Hin Hdata. apply elem_of_cons in Hin as [->|Hin].
  - now apply serve_executed_data in Hdata.
  - rewrite <- (serve_config f h r). now apply (IH _ _ Hin).
Qed.

(** X15. Over any run of a handler made by [CustomWrapHandler], every
    execution of the index template gets the same data, the normalised
    configuration without its instance name, and its title is never
    empty. *)
Theorem rendered_data_constant (index : template.Template) (c : Config.t)
    (h : webdav.Handler) (reqs : list Request) (res : Result)
    (data : swaggerConfig.t) :
  res ∈ serve_all (CustomWrapHandler index c) h reqs →
  data ∈ executed_data (calls res) →
  data = toSwaggerConfig (config (CustomWrapHandler index c)) ∧
  swaggerConfig.Title data ≠ "" ∧
  swaggerConfig.URL data = Config.URL c ∧
  swaggerConfig.DocExpansion data = Config.DocExpansion c.
Proof.
  intros Hres Hdata.
  rewrite (serve_all_executed_data _ h reqs res data Hres Hdata).
  split; [reflexivity|]. rewrite CustomWrapHandler_config.
  cbn [toSwaggerConfig swaggerConfig.Title swaggerConfig.URL
       swaggerConfig.DocExpansion Config.set_Title Config.Title
       Config.set_InstanceName Config.URL Config.DocExpansion].
  split; [|split; reflexivity].
  destruct (String.eqb_spec (Config.Title c) ""); [discriminate|done].
Qed.

(* ===================================================================== *)
(** * Two handlers on one [webdav.Handler] *)
(* ===================================================================== *)

(** What a run of one handler leaves of [once] and of the
    [webdav.Handler]. *)
Lemma after_all_state (f : Closure) (h : webdav.Handler)
    (reqs : list Request) :
  snd (after_all f h reqs) =
  (if once f then h
   else match first_captured reqs with
        | Some p => webdav.set_Prefix p h
        | None => h
        end).
Proof.
  revert f h. induction reqs as [|r reqs IH]; intros f h;
    cbn [after_all first_captured snd].
  { now destruct (once f). }
  rewrite IH. pose proof (serve_state f h r) as Hst.
  destruct (serve_request f h r) as [f1 h1 ctx1 cs1].
  cbn [closure res_handler] in *.
  destruct (captured_prefix r) as [p|]; unfold sync.Do in Hst.
  - destruct (once f); injection Hst as -> ->; reflexivity.
  - injection Hst as -> ->. reflexivity.
Qed.

(** X16. [once] belongs to the closure and [Prefix] to the
    [webdav.Handler]: when a second handler, whose [once] has not fired,
    serves on the [webdav.Handler] a first one has served on, the prefix is
    the capture of the first request the second one matched, and only when
    it matched none is it what the first handler left. *)
Theorem second_handler_rewrites_prefix (f1 f2 : Closure)
    (h : webdav.Handler) (reqs1 reqs2 : list Request) :
  once f1 = false → once f2 = false →
  let h1 := snd (after_all f1 h reqs1) in
  let h2 := snd (after_all f2 h1 reqs2) in
  webdav.Prefix h2 =
  match first_captured reqs2, first_captured reqs1 with
  | Some p2, _ => p2
  | None, Some p1 => p1
  | None, None => webdav.Prefix h
  end.
Proof.
  intros Ho1 Ho2 h1 h2. subst h1 h2. rewrite !after_all_state, Ho1, Ho2.
  destruct (first_captured reqs2), (first_captured reqs1); reflexivity.
Qed.

(* ===================================================================== *)
(** * The further statements at concrete requests *)
(* ===================================================================== *)

Lemma no_query_resource : ¬ recognized "v=1.0".
Proof.
  intros H. apply has_resource_recognized in H. vm_compute in H.
  discriminate H.
Defined.

Lemma favicon_served : "favicon-16x16.png" ∈ served.
Proof. unfold served. in_literals. Defined.

Lemma bundle_mapped : "swagger-ui-bundle.js" ∈ mapped.
Proof. unfold mapped. in_literals. Defined.

(** The file opened for [GET /favicon-16x16.png] is an asset. *)
Lemma opens_assets_only_witness : "favicon-16x16.png" ∈ assets.
Proof.
  apply (opens_assets_only test_closure test_handler test_swags
           "GET" "/favicon-16x16.png").
  vm_compute. left.
Defined.

(** [GET /doc.json] and [GET /swagger-ui.css] with another document
    registered besides and another file in the file system. *)
Lemma reads_only_what_it_serves_witness :
  response
    (serve test_closure test_handler test_swags
       (app.NewContext "GET" "/doc.json")) =
  response
    (serve test_closure test_handler (swag.Register "v2" "{}" test_swags)
       (app.NewContext "GET" "/doc.json")).
Proof.
  apply (reads_only_what_it_serves test_closure test_handler test_handler
           test_swags (swag.Register "v2" "{}" test_swags) "GET" "/doc.json").
  - vm_compute. reflexivity.
  - intros name _. reflexivity.
Defined.

(** The same file under two mounts. *)
Lemma response_by_group2_witness :
  reply
    (response
       (serve test_closure test_handler test_swags
          (app.NewContext consts.MethodGet "/docs/swagger-ui.css"))) =
  reply
    (response
       (serve test_closure test_handler test_swags
          (app.NewContext consts.MethodGet "/api/v1/swagger-ui.css?v=2"))).
Proof.
  assert (FindStringSubmatch matcher "/docs/swagger-ui.css" =
          ["/docs/swagger-ui.css"; "/docs/"; "swagger-ui.css"]) as H1
    by (vm_compute; reflexivity).
  assert (FindStringSubmatch matcher "/api/v1/swagger-ui.css?v=2" =
          ["/api/v1/swagger-ui.css?"; "/api/v1/"; "swagger-ui.css"]) as H2
    by (vm_compute; reflexivity).
  exact (proj1 (response_by_group2 test_closure test_handler test_swags
                  _ _ _ _ _ _ _ H1 H2)).
Defined.

(** A text with scheme and host. *)
Lemma text_ending_in_name_witness :
  FindStringSubmatch matcher ("http://localhost/docs/" ++ "favicon-16x16.png")
  = [ "http://localhost/docs/" ++ "favicon-16x16.png";
      "http://localhost/docs/"; "favicon-16x16.png" ].
Proof.
  exact (text_ending_in_name "http://localhost/docs/" "favicon-16x16.png"
           eq_refl favicon_served).
Defined.

(** A cache-busting query. *)
Lemma query_keeps_dispatch_witness :
  FindStringSubmatch matcher ("/docs/" ++ "favicon-16x16.png" ++ "?" ++ "v=1.0")
  = [ "/docs/" ++ "favicon-16x16.png" ++ "?" ++
        class_run ["?"; "|"; "."]%char "v=1.0";
      "/docs/"; "favicon-16x16.png" ].
Proof.
  exact (query_keeps_dispatch "/docs/" "favicon-16x16.png" "v=1.0"
           eq_refl favicon_served no_query_resource).
Defined.

(** [GET /swagger-ui-bundle.js.map] opens the bundle. *)
Lemma map_request_is_alias_witness :
  calls
    (serve test_closure test_handler test_swags
       (app.NewContext consts.MethodGet
          ("/" ++ "swagger-ui-bundle.js" ++ ".map"))) =
  [CallOpenFile "swagger-ui-bundle.js"].
Proof.
  pose proof (map_request_is_alias test_closure test_handler test_swags
                "/" "swagger-ui-bundle.js" eq_refl bundle_mapped) as H.
  cbv zeta in H. exact (proj1 (proj2 H)).
Defined.

(** [GET /index.html] of the test. *)
Lemma index_html_served_witness :
  let res :=
    serve test_closure test_handler test_swags
      (app.NewContext consts.MethodGet ("/" ++ "index.html" ++ "")) in
  app.StatusCode (response res) = 200 ∧
  app.Body (response res) = "<title>Swagger UI</title>".
Proof.
  intros res.
  pose proof (index_html_served test_closure test_handler test_swags "/" ""
                eq_refl not_recognized_empty) as H.
  cbv zeta in H. destruct H as (_ & Hstatus & Hbody & _).
  split; [exact Hstatus | exact Hbody].
Defined.

(** The data the test's handler renders with, and its title. *)
Lemma rendered_data_constant_witness :
  toSwaggerConfig (config test_closure) =
    toSwaggerConfig
      (config
         (CustomWrapHandler test_index
            (Config.mk "" "" "" "" 0 false false "" false))) ∧
  swaggerConfig.Title (toSwaggerConfig (config test_closure)) ≠ "".
Proof.
  pose proof (rendered_data_constant test_index
                (Config.mk "" "" "" "" 0 false false "" false) test_handler
                [mkRequest ∅ "GET" "/index.html"]
                (serve_request test_closure test_handler
                   (mkRequest ∅ "GET" "/index.html"))
                (toSwaggerConfig (config test_closure))) as H.
  assert (serve_request test_closure test_handler
            (mkRequest ∅ "GET" "/index.html")
          ∈ serve_all
              (CustomWrapHandler test_index
                 (Config.mk "" "" "" "" 0 false false "" false))
              test_handler [mkRequest ∅ "GET" "/index.html"]) as H1
    by (vm_compute; left).
  assert (toSwaggerConfig (config test_closure)
          ∈ executed_data
              (calls
                 (serve_request test_closure test_handler
                    (mkRequest ∅ "GET" "/index.html")))) as H2
    by (vm_compute; left).
  destruct (H H1 H2) as (Hdata & Htitle & _).
  split; [exact Hdata | exact Htitle].
Defined.

(** The two handlers of the tests, mounted at [/docs/] and then [/api/]. *)
Lemma second_handler_rewrites_prefix_witness :
  webdav.Prefix
    (snd (after_all (WrapHandler test_index [URL "swagger.json"])
            (snd (after_all test_closure test_handler
                    [mkRequest ∅ "GET" "/docs/index.html"]))
            [ mkRequest ∅ "GET" "/api/doc.json";
              mkRequest ∅ "GET" "/other/index.html" ])) = "/api/".
Proof.
  exact (second_handler_rewrites_prefix test_closure
           (WrapHandler test_index [URL "swagger.json"]) test_handler
           [mkRequest ∅ "GET" "/docs/index.html"]
           [ mkRequest ∅ "GET" "/api/doc.json";
             mkRequest ∅ "GET" "/other/index.html" ] eq_refl eq_refl).
Defined.
